(** * Offensive-metrics aggregation of the match dashboard (app.py)

    The script loads a table of football matches, checks that the columns
    it needs are there, turns the possession strings into numbers and then
    computes, for every match category and every team, the offensive
    metrics shown in the stacked bar chart.  This file embeds those stages
    and proves their properties.

    Modelling conventions.
    - A cell of a text column is [option string]: [None] is the missing
      value (NaN) pandas stores for an empty field.
    - The statistic columns used by the aggregation hold match counts;
      they are integer columns and are modelled as [Z].  The 64-bit range
      of the column type is not modelled.
    - A float is an exact rational, or one of the non-finite values that
      a division by zero produces.  Binary rounding error is not modelled. *)

From Stdlib Require Import ZArith QArith Qround Lqa Ascii String List Permutation Lia.
From Stdlib Require Import DecimalString Sorted.
From stdpp Require Import gmap strings list fin_maps.

Set Warnings "-clear-no-such-hyp".
Local Open Scope Z_scope.

(** ** Cells, rows and the table *)

(** A cell of a text column; [None] is NaN. *)
Abbreviation label := (option string).

(** One match: the columns read by the aggregation loop. *)
Record match_row := {
  team1 : label;
  team2 : label;
  category : label;
  total_attempts_team1 : Z;
  total_attempts_team2 : Z;
  on_target_attempts_team1 : Z;
  on_target_attempts_team2 : Z;
  number_of_goals_team1 : Z;
  number_of_goals_team2 : Z;
  assists_team1 : Z;
  assists_team2 : Z
}.

Abbreviation table := (list match_row).

(** Element-wise [==] of a text column against a value: NaN equals
    nothing, not even NaN. *)
Definition elem_eq (x y : label) : bool :=
  match x, y with
  | Some a, Some b => bool_decide (a = b)
  | _, _ => false
  end.

(** [Series.unique()]: the distinct values in order of first appearance;
    all NaN count as one value. *)
Fixpoint unique_from (seen l : list label) : list label :=
  match l with
  | [] => []
  | x :: l' =>
      if bool_decide (x ∈ seen) then unique_from seen l'
      else x :: unique_from (x :: seen) l'
  end.

Definition unique (l : list label) : list label := unique_from [] l.

(** [Series.sum()] of an integer column. *)
Definition col_sum (col : match_row → Z) (df : table) : Z :=
  foldr (λ r acc, col r + acc) 0 df.

(** ** Floats *)

Inductive float :=
| Finite (q : Q)
| Inf (negative : bool)
| NaN.

(** [a / b] on two integer sums: true division, which on a zero
    denominator does not raise but yields NaN (0/0) or an infinity. *)
Definition true_divide (a b : Z) : float :=
  if b =? 0 then (if a =? 0 then NaN else Inf (a <? 0))
  else Finite (inject_Z a / inject_Z b)%Q.

(** [x * 100]. *)
Definition times100 (x : float) : float :=
  match x with
  | Finite q => Finite (q * 100)%Q
  | Inf n => Inf n
  | NaN => NaN
  end.

(** Round to the nearest integer, ties to the even one. *)
Definition rint (q : Q) : Z :=
  let f := Qfloor q in
  match (q - inject_Z f ?= 1 # 2)%Q with
  | Lt => f
  | Gt => f + 1
  | Eq => if Z.even f then f else f + 1
  end.

(** [round(x, 2)] on a float. *)
Definition round2 (x : float) : float :=
  match x with
  | Finite q => Finite (inject_Z (rint (q * 100)) / 100)%Q
  | Inf n => Inf n
  | NaN => NaN
  end.

(** [round(n, 2)] on an integer: the integer itself. *)
Definition round2_int (n : Z) : Z := n.

(** ** The aggregation loop (app.py, lines 36-55) *)

Definition teams (df : table) : list label :=
  unique (map team1 df ++ map team2 df).

Definition categories (df : table) : list label :=
  unique (map category df).

(** A row of the per-category frame with columns
    ['Team', 'Total Attempts', 'On-Target %', 'Goals', 'Assists']. *)
Record metric_row := {
  Team : label;
  Total_Attempts : Z;
  On_Target_pct : float;
  Goals : Z;
  Assists : Z
}.

Definition team_data (df : table) (team : label) : table :=
  List.filter (λ r, elem_eq (team1 r) team || elem_eq (team2 r) team) df.

Definition category_data (df : table) (cat team : label) : table :=
  List.filter (λ r, elem_eq (category r) cat) (team_data df team).

(** The body of the inner loop. *)
Definition team_metrics (df : table) (cat team : label) : metric_row :=
  let cd := category_data df cat team in
  match cd with
  | [] =>
      {| Team := team; Total_Attempts := 0; On_Target_pct := Finite 0;
         Goals := 0; Assists := 0 |}
  | _ :: _ =>
      {| Team := team;
         Total_Attempts :=
           round2_int (col_sum total_attempts_team1 cd
                       + col_sum total_attempts_team2 cd);
         On_Target_pct :=
           round2 (times100
             (true_divide
                (col_sum on_target_attempts_team1 cd
                 + col_sum on_target_attempts_team2 cd)
                (col_sum total_attempts_team1 cd
                 + col_sum total_attempts_team2 cd)));
         Goals :=
           round2_int (col_sum number_of_goals_team1 cd
                       + col_sum number_of_goals_team2 cd);
         Assists :=
           round2_int (col_sum assists_team1 cd + col_sum assists_team2 cd) |}
  end.

(** The inner loop: one record per team, in the order of [teams]. *)
Definition category_metrics (df : table) (cat : label) : list metric_row :=
  map (team_metrics df cat) (teams df).

(** The outer loop: [metrics[category] = ...] for each category in turn. *)
Definition metrics (df : table) : gmap label (list metric_row) :=
  foldl (λ m cat, <[cat := category_metrics df cat]> m) ∅ (categories df).

(** The record of [team] in [metrics[cat]]. *)
Definition lookup_record (m : gmap label (list metric_row))
    (cat team : label) : option metric_row :=
  m !! cat ≫= List.find (λ r, bool_decide (Team r = team)).

(** ** Sample tables *)

Definition mk_row (t1 t2 cat : string) (a1 a2 o1 o2 g1 g2 s1 s2 : Z) : match_row :=
  {| team1 := Some t1; team2 := Some t2; category := Some cat;
     total_attempts_team1 := a1; total_attempts_team2 := a2;
     on_target_attempts_team1 := o1; on_target_attempts_team2 := o2;
     number_of_goals_team1 := g1; number_of_goals_team2 := g2;
     assists_team1 := s1; assists_team2 := s2 |}.

Definition sample : table :=
  [ mk_row "QATAR" "ECUADOR" "Group A" 2 1 0 1 0 2 0 1;
    mk_row "ENGLAND" "IRAN" "Group B" 13 8 7 3 6 2 6 1;
    mk_row "QATAR" "SENEGAL" "Group A" 10 14 3 5 1 3 1 2 ].

(** A match in which neither side had an attempt. *)
Definition no_attempts : table :=
  [ mk_row "QATAR" "ECUADOR" "Group A" 0 0 0 0 0 0 0 0 ].

(** One attempt on target out of three. *)
Definition one_in_three : table :=
  [ mk_row "QATAR" "ECUADOR" "Group A" 2 1 0 1 0 2 0 1 ].

(** ** The contract in the words of the specification *)

(** The rows of a (team, category) pair: those whose category equals the
    category and whose team1 or team2 equals the team. *)
Definition spec_rows (df : table) (cat team : label) : table :=
  List.filter
    (λ r, elem_eq (category r) cat
          && (elem_eq (team1 r) team || elem_eq (team2 r) team)) df.

Definition spec_total_attempts (rows : table) : Z :=
  col_sum total_attempts_team1 rows + col_sum total_attempts_team2 rows.

Definition spec_on_target (rows : table) : Z :=
  col_sum on_target_attempts_team1 rows + col_sum on_target_attempts_team2 rows.

Definition spec_goals (rows : table) : Z :=
  col_sum number_of_goals_team1 rows + col_sum number_of_goals_team2 rows.

Definition spec_assists (rows : table) : Z :=
  col_sum assists_team1 rows + col_sum assists_team2 rows.

(** 100 x on-target / attempts, as an exact rational. *)
Definition spec_on_target_pct (rows : table) : Q :=
  (100 * (inject_Z (spec_on_target rows) / inject_Z (spec_total_attempts rows)))%Q.

(** [q] is [x] rounded to the nearest hundredth. *)
Definition nearest_hundredth (x q : Q) : Prop :=
  ∃ k : Z, (q == inject_Z k / 100)%Q
           ∧ (inject_Z k - (1 # 2) <= 100 * x)%Q
           ∧ (100 * x <= inject_Z k + (1 # 2))%Q.

(** The denominator handed to the division of lines 50-51, when the
    [else] branch runs; [None] when the guard takes the all-zero branch. *)
Definition division_denominator (df : table) (cat team : label) : option Z :=
  let cd := category_data df cat team in
  match cd with
  | [] => None
  | _ :: _ =>
      Some (col_sum total_attempts_team1 cd + col_sum total_attempts_team2 cd)
  end.

(** The on-target percentage as the specification words it: the record of
    the pair carries exactly 100 x on-target / attempts. *)
Definition exact_on_target_pct (df : table) (cat team : label) : Prop :=
  ∃ rec q,
    lookup_record (metrics df) cat team = Some rec
    ∧ On_Target_pct rec = Finite q
    ∧ (q == spec_on_target_pct (spec_rows df cat team))%Q.

(** Every division of the aggregation has a nonzero denominator. *)
Definition division_guarded (df : table) : Prop :=
  ∀ cat team d,
    cat ∈ categories df → team ∈ teams df →
    division_denominator df cat team = Some d → d ≠ 0.

(** The row-wise premise of the bound invariant. *)
Definition on_target_within_attempts (r : match_row) : Prop :=
  0 <= on_target_attempts_team1 r <= total_attempts_team1 r
  ∧ 0 <= on_target_attempts_team2 r <= total_attempts_team2 r
  ∧ 0 <= number_of_goals_team1 r ∧ 0 <= number_of_goals_team2 r
  ∧ 0 <= assists_team1 r ∧ 0 <= assists_team2 r.

(** A percentage inside the closed interval [0, 100]. *)
Definition pct_in_range (x : float) : Prop :=
  ∃ q, x = Finite q ∧ (0 <= q)%Q ∧ (q <= 100)%Q.

(** The bound invariant on one table. *)
Definition bounds_hold (df : table) : Prop :=
  ∀ cat team rec,
    lookup_record (metrics df) cat team = Some rec →
    pct_in_range (On_Target_pct rec)
    ∧ 0 <= Total_Attempts rec ∧ 0 <= Goals rec ∧ 0 <= Assists rec.

(** A field of the record of [team] in [metrics[cat]] (0 when absent). *)
Definition record_field (field : metric_row → Z)
    (m : gmap label (list metric_row)) (cat team : label) : Z :=
  from_option field 0 (lookup_record m cat team).

(** The sum of [f] over a list of categories. *)
Definition sum_over (f : label → Z) (cats : list label) : Z :=
  foldr (λ c acc, f c + acc) 0 cats.

(** ** Counting row visits

    The same loop with a counter: a selection or a column sum over a frame
    of [n] rows visits [n] rows. *)

Definition counted (A : Type) : Type := A * nat.

#[global] Instance counted_ret : MRet counted := λ A x, (x, 0%nat).

#[global] Instance counted_bind : MBind counted := λ A B f m,
  let '(a, n) := m in let '(b, k) := f a in (b, (n + k)%nat).

Definition select_c (p : match_row → bool) (df : table) : counted table :=
  (List.filter p df, length df).

Definition sum_c (col : match_row → Z) (df : table) : counted Z :=
  (col_sum col df, length df).

Definition team_metrics_c (df : table) (cat team : label) : counted metric_row :=
  td ← select_c (λ r, elem_eq (team1 r) team || elem_eq (team2 r) team) df;
  cd ← select_c (λ r, elem_eq (category r) cat) td;
  match cd with
  | [] =>
      mret {| Team := team; Total_Attempts := 0; On_Target_pct := Finite 0;
             Goals := 0; Assists := 0 |}
  | _ :: _ =>
      a1 ← sum_c total_attempts_team1 cd;
      a2 ← sum_c total_attempts_team2 cd;
      o1 ← sum_c on_target_attempts_team1 cd;
      o2 ← sum_c on_target_attempts_team2 cd;
      b1 ← sum_c total_attempts_team1 cd;
      b2 ← sum_c total_attempts_team2 cd;
      g1 ← sum_c number_of_goals_team1 cd;
      g2 ← sum_c number_of_goals_team2 cd;
      s1 ← sum_c assists_team1 cd;
      s2 ← sum_c assists_team2 cd;
      mret {| Team := team;
             Total_Attempts := round2_int (a1 + a2);
             On_Target_pct := round2 (times100 (true_divide (o1 + o2) (b1 + b2)));
             Goals := round2_int (g1 + g2);
             Assists := round2_int (s1 + s2) |}
  end.

Fixpoint category_metrics_c (df : table) (cat : label) (ts : list label)
    : counted (list metric_row) :=
  match ts with
  | [] => mret []
  | team :: ts' =>
      rec ← team_metrics_c df cat team;
      recs ← category_metrics_c df cat ts';
      mret (rec :: recs)
  end.

Definition metrics_c (df : table) : counted (gmap label (list metric_row)) :=
  foldl (λ acc cat,
           m ← acc;
           recs ← category_metrics_c df cat (teams df);
           mret (<[cat := recs]> m))
        (mret ∅) (categories df).

(** ** The frame read from the CSV file *)

(** A column, by dtype.  A text column holds strings and NaN; a datetime
    column holds day numbers and NaT ([None]). *)
Inductive Series :=
| ObjectS (vals : list label)
| Int64S (vals : list Z)
| Float64S (vals : list float)
| Datetime64S (vals : list (option Z)).

(** The columns in file order, each under its name. *)
Abbreviation DataFrame := (list (string * Series)).

Definition columns (df : DataFrame) : list string := map fst df.

Inductive exn :=
| KeyError (key : string)
| MissingColumns (missing : list string)
    (* ValueError("Missing columns in dataset: [...]") *)
| TimeDataError (value : string)
    (* ValueError of to_datetime: the value does not match the format *)
| FloatConversionError (value : string)
    (* ValueError of astype(float): could not convert string to float *)
| StrAccessorError
    (* AttributeError: .str is only for text columns *)
| NotModelled.
    (* the frame is outside the dtypes this development covers *)

Inductive result (A : Type) :=
| Ok (a : A)
| Raise (e : exn).
Arguments Ok {A} a.
Arguments Raise {A} e.

#[global] Instance result_ret : MRet result := λ A x, Ok x.

#[global] Instance result_bind : MBind result := λ A B f m,
  match m with Ok a => f a | Raise e => Raise e end.

#[global] Instance result_fmap : FMap result := λ A B f m,
  match m with Ok a => Ok (f a) | Raise e => Raise e end.

Fixpoint traverse {A B} (f : A → result B) (l : list A) : result (list B) :=
  match l with
  | [] => Ok []
  | x :: l' => y ← f x; ys ← traverse f l'; mret (y :: ys)
  end.

(** [df[name]]. *)
Fixpoint getitem (df : DataFrame) (name : string) : result Series :=
  match df with
  | [] => Raise (KeyError name)
  | (c, s) :: df' => if bool_decide (c = name) then Ok s else getitem df' name
  end.

(** [df[name] = s]: replaces the column, or appends it. *)
Fixpoint setitem (df : DataFrame) (name : string) (s : Series) : DataFrame :=
  match df with
  | [] => [(name, s)]
  | (c, s0) :: df' =>
      if bool_decide (c = name) then (c, s) :: df'
      else (c, s0) :: setitem df' name s
  end.

(** The two string parsers of the library: [strptime] reads a date in the
    format '%d %b %Y' and gives its day number, [str_to_float] is
    [float(s)].  Both answer [None] on a string they reject. *)
Class Parsers := {
  strptime : string → option Z;
  str_to_float : string → option float
}.

(** [pd.to_datetime(s, format='%d %b %Y')]. *)
Definition to_datetime `{Parsers} (s : Series) : result Series :=
  match s with
  | ObjectS vals =>
      Datetime64S <$>
        traverse (λ v, match v with
                       | None => Ok None
                       | Some str =>
                           match strptime str with
                           | Some t => Ok (Some t)
                           | None => Raise (TimeDataError str)
                           end
                       end) vals
  | Datetime64S _ => Ok s
  | Int64S _ | Float64S _ => Raise NotModelled
  end.

(** Ascending order of the sort keys, NaT last. *)
Definition key_le (a b : option Z) : bool :=
  match a, b with
  | _, None => true
  | None, Some _ => false
  | Some x, Some y => x <=? y
  end.

Fixpoint insert_by (x : option Z * nat) (l : list (option Z * nat))
    : list (option Z * nat) :=
  match l with
  | [] => [x]
  | y :: l' => if key_le x.1 y.1 then x :: l else y :: insert_by x l'
  end.

(** The order in which the sort lists the row numbers; rows with equal
    keys keep their order. *)
Definition argsort (keys : list (option Z)) : list nat :=
  map snd (foldr insert_by [] (zip keys (seq 0 (length keys)))).

Definition take {A} (idx : list nat) (vals : list A) : list A :=
  omap (λ i, vals !! i) idx.

Definition take_rows (idx : list nat) (s : Series) : Series :=
  match s with
  | ObjectS v => ObjectS (take idx v)
  | Int64S v => Int64S (take idx v)
  | Float64S v => Float64S (take idx v)
  | Datetime64S v => Datetime64S (take idx v)
  end.

(** [df.sort_values(by=name)] for a datetime column. *)
Definition sort_values (df : DataFrame) (name : string) : result DataFrame :=
  s ← getitem df name;
  match s with
  | Datetime64S keys =>
      Ok (map (λ cs : string * Series, (cs.1, take_rows (argsort keys) cs.2)) df)
  | _ => Raise NotModelled
  end.

(** [s.replace(old, new)] for one-character strings. *)
Fixpoint replace_char (old new : ascii) (s : string) : string :=
  match s with
  | EmptyString => EmptyString
  | String a s' =>
      String (if bool_decide (a = old) then new else a) (replace_char old new s')
  end.

(** [df.columns = df.columns.str.replace(" ", "_")]. *)
Definition rename_columns (df : DataFrame) : DataFrame :=
  map (λ cs : string * Series, (replace_char " "%char "_"%char cs.1, cs.2)) df.

Definition required_columns : list string :=
  [ "possession_team1"; "possession_team2"; "possession_in_contest";
    "number_of_goals_team1"; "number_of_goals_team2"; "total_attempts_team1";
    "total_attempts_team2"; "on_target_attempts_team1"; "on_target_attempts_team2";
    "team1"; "team2"; "date"; "hour"; "category"; "assists_team1"; "assists_team2"
  ]%string.

Definition missing_columns (df : DataFrame) : list string :=
  List.filter (λ col, negb (bool_decide (col ∈ columns df))) required_columns.

(** [s.rstrip(c)]: drops every trailing [c]. *)
Fixpoint rstrip (c : ascii) (s : string) : string :=
  match s with
  | EmptyString => EmptyString
  | String a s' =>
      match rstrip c s' with
      | EmptyString => if bool_decide (a = c) then EmptyString else String a EmptyString
      | t => String a t
      end
  end.

(** [s.str.rstrip(c)]: text columns only; NaN stays NaN. *)
Definition str_rstrip (c : ascii) (s : Series) : result Series :=
  match s with
  | ObjectS vals => Ok (ObjectS (map (option_map (rstrip c)) vals))
  | _ => Raise StrAccessorError
  end.

(** One cell of a text column under [astype(float)]. *)
Definition cell_to_float `{Parsers} (v : label) : result float :=
  match v with
  | None => Ok NaN
  | Some str =>
      match str_to_float str with
      | Some x => Ok x
      | None => Raise (FloatConversionError str)
      end
  end.

(** [s.astype(float)]. *)
Definition astype_float `{Parsers} (s : Series) : result Series :=
  match s with
  | ObjectS vals => Float64S <$> traverse cell_to_float vals
  | Int64S vals => Ok (Float64S (map (λ z, Finite (inject_Z z)) vals))
  | Float64S _ => Ok s
  | Datetime64S _ => Raise NotModelled
  end.

(** ** The typed view read by the aggregation *)

Definition text_col (df : DataFrame) (name : string) : option (list label) :=
  match getitem df name with Ok (ObjectS v) => Some v | _ => None end.

Definition int_col (df : DataFrame) (name : string) : option (list Z) :=
  match getitem df name with Ok (Int64S v) => Some v | _ => None end.

(** The rows of a frame whose team and category columns are text and
    whose statistic columns are integers. *)
Definition rows_of (df : DataFrame) : option table :=
  t1 ← text_col df "team1"; t2 ← text_col df "team2";
  ct ← text_col df "category";
  a1 ← int_col df "total_attempts_team1"; a2 ← int_col df "total_attempts_team2";
  o1 ← int_col df "on_target_attempts_team1";
  o2 ← int_col df "on_target_attempts_team2";
  g1 ← int_col df "number_of_goals_team1"; g2 ← int_col df "number_of_goals_team2";
  s1 ← int_col df "assists_team1"; s2 ← int_col df "assists_team2";
  mapM (λ i : nat,
          x1 ← t1 !! i; x2 ← t2 !! i; x3 ← ct !! i;
          x4 ← a1 !! i; x5 ← a2 !! i; x6 ← o1 !! i; x7 ← o2 !! i;
          x8 ← g1 !! i; x9 ← g2 !! i; x10 ← s1 !! i; x11 ← s2 !! i;
          Some {| team1 := x1; team2 := x2; category := x3;
                  total_attempts_team1 := x4; total_attempts_team2 := x5;
                  on_target_attempts_team1 := x6; on_target_attempts_team2 := x7;
                  number_of_goals_team1 := x8; number_of_goals_team2 := x9;
                  assists_team1 := x10; assists_team2 := x11 |})
       (seq 0 (length t1)).

(** ** The script, statement by statement (app.py, lines 10-55) *)

(** The two variables of the script the statements below assign. *)
Record globals := {
  g_df : DataFrame;
  g_metrics : option (gmap label (list metric_row))
}.

Definition set_df (g : globals) (df : DataFrame) : globals :=
  {| g_df := df; g_metrics := g_metrics g |}.

(** A statement either completes with new variables or raises and
    leaves them as they were. *)
Definition stmt := globals → result globals.

(** Line 11: [df['ts'] = pd.to_datetime(df['date'], format='%d %b %Y')]. *)
Definition parse_dates `{Parsers} : stmt := λ g,
  date ← getitem (g_df g) "date";
  ts ← to_datetime date;
  mret (set_df g (setitem (g_df g) "ts" ts)).

(** Line 14. *)
Definition sort_by_ts : stmt := λ g,
  df ← sort_values (g_df g) "ts";
  mret (set_df g df).

(** Line 17. *)
Definition rename : stmt := λ g, mret (set_df g (rename_columns (g_df g))).

(** Lines 26-28. *)
Definition validate : stmt := λ g,
  match missing_columns (g_df g) with
  | [] => Ok g
  | col :: cols => Raise (MissingColumns (col :: cols))
  end.

(** Lines 31-33, one column each:
    [df[name] = df[name].str.rstrip('%').astype(float)]. *)
Definition preprocess `{Parsers} (name : string) : stmt := λ g,
  s ← getitem (g_df g) name;
  stripped ← str_rstrip "%"%char s;
  parsed ← astype_float stripped;
  mret (set_df g (setitem (g_df g) name parsed)).

(** Lines 36-55. *)
Definition aggregate : stmt := λ g,
  match rows_of (g_df g) with
  | Some rows => Ok {| g_df := g_df g; g_metrics := Some (metrics rows) |}
  | None => Raise NotModelled
  end.

Definition possession_columns : list string :=
  [ "possession_team1"; "possession_team2"; "possession_in_contest" ]%string.

Definition load_stage `{Parsers} : list stmt := [parse_dates; sort_by_ts; rename].

Definition transform_stage `{Parsers} : list stmt := map preprocess possession_columns.

Definition script `{Parsers} : list stmt :=
  load_stage ++ [validate] ++ transform_stage ++ [aggregate].

(** Runs the statements in order; the first exception ends the run with
    the variables as they stand. *)
Fixpoint exec (stmts : list stmt) (g : globals) : globals * option exn :=
  match stmts with
  | [] => (g, None)
  | st :: rest =>
      match st g with
      | Ok g' => exec rest g'
      | Raise e => (g, Some e)
      end
  end.

(** The program on the frame that [read_csv] returned. *)
Definition run `{Parsers} (csv : DataFrame) : globals * option exn :=
  exec script {| g_df := csv; g_metrics := None |}.

(** ** Parsers for the examples

    Decimal numerals and dates such as [20 NOV 2022]: the part of the
    two library parsers that the examples below need. *)

Definition digit_of (a : ascii) : option Z :=
  let n := Z.of_nat (nat_of_ascii a) - 48 in
  if (0 <=? n) && (n <=? 9) then Some n else None.

Fixpoint digits_from (acc : Z) (s : string) : option Z :=
  match s with
  | EmptyString => Some acc
  | String a s' => d ← digit_of a; digits_from (10 * acc + d) s'
  end.

(** A non-empty run of digits. *)
Definition digits (s : string) : option Z :=
  match s with
  | EmptyString => None
  | _ => digits_from 0 s
  end.

(** Splits at the first [c]. *)
Fixpoint split_at (c : ascii) (s : string) : string * option string :=
  match s with
  | EmptyString => (EmptyString, None)
  | String a s' =>
      if bool_decide (a = c) then (EmptyString, Some s')
      else let '(l, r) := split_at c s' in (String a l, r)
  end.

(** [float(s)] on an optional sign, digits and an optional fraction. *)
Definition decimal_float (s : string) : option float :=
  let '(neg, body) :=
    match s with
    | String "-" r => (true, r)
    | String "+" r => (false, r)
    | _ => (false, s)
    end in
  let sign (q : Q) : float := Finite (if neg then - q else q)%Q in
  match split_at "." body with
  | (ip, None) => n ← digits ip; Some (sign (inject_Z n))
  | (ip, Some fp) =>
      match ip, fp with
      | EmptyString, EmptyString => None
      | _, _ =>
          n ← digits_from 0 ip; m ← digits_from 0 fp;
          Some (sign (inject_Z n + inject_Z m / inject_Z (10 ^ Z.of_nat (String.length fp)))%Q)
      end
  end.

Definition month_of (s : string) : option Z :=
  list_find (λ m, m = s)
    [ "JAN"; "FEB"; "MAR"; "APR"; "MAY"; "JUN";
      "JUL"; "AUG"; "SEP"; "OCT"; "NOV"; "DEC" ]%string
  ≫= λ im, Some (Z.of_nat im.1 + 1).

(** [day month year], ordered as the calendar orders them. *)
Definition day_month_year (s : string) : option Z :=
  match split_at " " s with
  | (d, Some rest) =>
      match split_at " " rest with
      | (m, Some y) =>
          day ← digits d; month ← month_of m; year ← digits y;
          if (1 <=? day) && (day <=? 31) then Some ((year * 12 + month) * 31 + day)
          else None
      | _ => None
      end
  | _ => None
  end.

Definition sample_parsers : Parsers :=
  {| strptime := day_month_year; str_to_float := decimal_float |}.

(** ** Sample frames *)

Definition sample_csv : DataFrame :=
  [ ("team1", ObjectS [Some "ENGLAND"; Some "QATAR"; Some "QATAR"]);
    ("team2", ObjectS [Some "IRAN"; Some "ECUADOR"; Some "SENEGAL"]);
    ("possession team1", ObjectS [Some "72%"; Some "42%"; Some "42%"]);
    ("possession team2", ObjectS [Some "19%"; Some "50%"; Some "46%"]);
    ("possession in contest", ObjectS [Some "9%"; Some "8%"; Some "12%"]);
    ("number of goals team1", Int64S [6; 0; 1]);
    ("number of goals team2", Int64S [2; 2; 3]);
    ("date", ObjectS [Some "21 NOV 2022"; Some "20 NOV 2022"; Some "25 NOV 2022"]);
    ("hour", ObjectS [Some "14 : 00"; Some "17 : 00"; Some "14 : 00"]);
    ("category", ObjectS [Some "Group B"; Some "Group A"; Some "Group A"]);
    ("total attempts team1", Int64S [13; 2; 10]);
    ("total attempts team2", Int64S [8; 1; 14]);
    ("on target attempts team1", Int64S [7; 0; 3]);
    ("on target attempts team2", Int64S [3; 1; 5]);
    ("assists team1", Int64S [6; 0; 1]);
    ("assists team2", Int64S [1; 1; 2]) ]%string.

(** The same file without its date column. *)
Definition csv_without_date : DataFrame :=
  List.filter (λ cs, negb (bool_decide (cs.1 = "date"%string))) sample_csv.

(** The same file without its hour column. *)
Definition csv_without_hour : DataFrame :=
  List.filter (λ cs, negb (bool_decide (cs.1 = "hour"%string))) sample_csv.

(** The same file with one possession field left empty. *)
Definition csv_with_gap : DataFrame :=
  setitem sample_csv "possession team1" (ObjectS [Some "72%"; None; Some "42%"]).

(** The same file without its date and hour columns. *)
Definition csv_without_date_and_hour : DataFrame :=
  List.filter (λ cs, negb (bool_decide (cs.1 = "date"%string))) csv_without_hour.

(** ** The possession step in the words of the specification *)

(** The value a cell of a possession column is turned into. *)
Definition parsed_cell `{Parsers} (v : label) : float :=
  match v with
  | None => NaN
  | Some str => default NaN (str_to_float (rstrip "%" str))
  end.

(** A cell the step accepts: an empty field, or a string that parses
    once its trailing percent signs are gone. *)
Definition cell_ok `{Parsers} (v : label) : bool :=
  match v with
  | None => true
  | Some str => bool_decide (is_Some (str_to_float (rstrip "%" str)))
  end.

Definition column_ok `{Parsers} (col : result Series) : bool :=
  match col with
  | Ok (ObjectS vals) => forallb cell_ok vals
  | _ => false
  end.

Definition columns_ok `{Parsers} (df : DataFrame) : bool :=
  forallb (λ name, column_ok (getitem df name)) possession_columns.

(** The condition as the specification words it: every value of the
    three columns is a string whose stripped form parses. *)
Definition every_value_parses `{Parsers} (df : DataFrame) : Prop :=
  ∀ name, name ∈ possession_columns →
    ∃ vals, getitem df name = Ok (ObjectS vals)
            ∧ ∀ v, v ∈ vals →
                ∃ str, v = Some str ∧ is_Some (str_to_float (rstrip "%" str)).

Definition succeeds_only_on_strings `{Parsers} (df : DataFrame) : Prop :=
  (exec transform_stage {| g_df := df; g_metrics := None |}).2 = None →
  every_value_parses df.

(** ** Text renderings *)

(** The library's renderings of values as text: [format_2f] is the format
    spec [.2f]; [str_float], [str_int] and [str_datetime] are [str] on a
    float, an integer and a timestamp. *)
Class Formats := {
  format_2f : float → string;
  str_float : float → string;
  str_int : Z → string;
  str_datetime : option Z → string
}.

(** [str] of a text cell. *)
Definition str_label (v : label) : string :=
  match v with
  | Some s => s
  | None => "nan"
  end.

(** ** The stacked bar chart (app.py, lines 57-137) *)

Inductive chart_exn :=
| IndexError
| MetricsKeyError (key : label).

Inductive built (A : Type) :=
| Built (a : A)
| Failed (e : chart_exn).
Arguments Built {A} a.
Arguments Failed {A} e.

#[global] Instance built_ret : MRet built := λ A x, Built x.

#[global] Instance built_bind : MBind built := λ A B f m,
  match m with Built a => f a | Failed e => Failed e end.

Fixpoint build_all {A B} (f : A → built B) (l : list A) : built (list B) :=
  match l with
  | [] => Built []
  | x :: l' => y ← f x; ys ← build_all f l'; mret (y :: ys)
  end.

(** A numeric column of a per-category frame. *)
Inductive column :=
| IntColumn (vals : list Z)
| FloatColumn (vals : list float).

Definition column_length (c : column) : nat :=
  match c with
  | IntColumn v => length v
  | FloatColumn v => length v
  end.

(** The four metric columns of a per-category frame, in the order the
    chart lists them. *)
Definition metric_columns (frame : list metric_row) : list column :=
  [ IntColumn (map Total_Attempts frame); FloatColumn (map On_Target_pct frame);
    IntColumn (map Goals frame); IntColumn (map Assists frame) ].

(** [[f'{val:.2f}' for val in column]]. *)
Definition column_text `{Formats} (c : column) : list string :=
  match c with
  | IntColumn v => map (λ n, format_2f (Finite (inject_Z n))) v
  | FloatColumn v => map format_2f v
  end.

Definition colors : list string :=
  [ "#1F77B4"; "#FF7F0E"; "#2CA02C"; "#D62728" ]%string.

Definition metric_names : list string :=
  [ "Total Attempts"; "On-Target %"; "Goals"; "Assists" ]%string.

(** A [go.Bar] trace; [hoverinfo] and the marker line, the same on every
    trace, are not carried. *)
Record bar := {
  bar_x : list label;
  bar_y : column;
  bar_name : string;
  bar_color : string;
  bar_text : list string
}.

(** Lines 67-101: one trace per metric. *)
Definition fig4_traces `{Formats} (metrics_df : list metric_row) : list bar :=
  zip_with
    (λ (nc : string * string) (y : column),
       {| bar_x := map Team metrics_df; bar_y := y; bar_name := nc.1;
          bar_color := nc.2; bar_text := column_text y |})
    (zip metric_names colors) (metric_columns metrics_df).

(** A button of the category menu: its label and the [x], [y] and [text]
    it sets on the four traces. *)
Record button := {
  button_label : label;
  args_x : list (list label);
  args_y : list column;
  args_text : list column
}.

(** [metrics[key]]. *)
Definition metrics_getitem (m : gmap label (list metric_row)) (key : label)
    : built (list metric_row) :=
  match m !! key with
  | Some frame => Built frame
  | None => Failed (MetricsKeyError key)
  end.

(** Lines 121-127, for one category. *)
Definition category_button (m : gmap label (list metric_row)) (cat : label)
    : built button :=
  frame ← metrics_getitem m cat;
  mret {| button_label := cat;
          args_x := replicate 4 (map Team frame);
          args_y := metric_columns frame;
          args_text := metric_columns frame |}.

Record figure4 := {
  fig4_data : list bar;
  fig4_buttons : list button
}.

(** Lines 58-137 on the variables [categories] and [metrics]. *)
Definition build_fig4 `{Formats} (cats : list label)
    (m : gmap label (list metric_row)) : built figure4 :=
  match cats with
  | [] => Failed IndexError
  | default_category :: _ =>
      metrics_df ← metrics_getitem m default_category;
      buttons ← build_all (category_button m) cats;
      mret {| fig4_data := fig4_traces metrics_df; fig4_buttons := buttons |}
  end.

(** ** The 3D scatter (app.py, lines 158-212) *)

(** A row of the preprocessed frame as the scatter and the animation
    read it. *)
Record chart_row := {
  stats : match_row;
  date : label;
  ts : option Z;
  possession_team1 : float;
  possession_team2 : float
}.

(** A [go.Scatter3d] trace; [mode] and the marker opacity, the same on
    every trace, are not carried. *)
Record scatter3d := {
  s3_x : list Z;
  s3_y : list float;
  s3_z : list Z;
  s3_size : Z;
  s3_name : string;
  s3_text : string;
  s3_hovertemplate : string;
  s3_visible : bool
}.

Definition match_name (row : chart_row) : string :=
  str_label (team1 (stats row)) ++ " vs " ++ str_label (team2 (stats row))
  ++ " (" ++ str_label (date row) ++ ")".

Definition hover_text `{Formats} (team : label) (attempts : Z) (possession : float)
    (goals on_target : Z) : string :=
  "Team: " ++ str_label team ++ "<br>"
  ++ "Total Attempts: " ++ str_int attempts ++ "<br>"
  ++ "Possession: " ++ str_float possession ++ "%<br>"
  ++ "Goals: " ++ str_int goals ++ "<br>"
  ++ "On Target Attempts: " ++ str_int on_target ++ "<br>".

(** Lines 161-178, one row. *)
Definition team1_trace `{Formats} (row : chart_row) : scatter3d :=
  let r := stats row in
  {| s3_x := [total_attempts_team1 r];
     s3_y := [possession_team1 row];
     s3_z := [number_of_goals_team1 r];
     s3_size := on_target_attempts_team1 r;
     s3_name := match_name row;
     s3_text := str_label (team1 r) ++ " (" ++ str_label (date row) ++ ")";
     s3_hovertemplate :=
       hover_text (team1 r) (total_attempts_team1 r) (possession_team1 row)
         (number_of_goals_team1 r) (on_target_attempts_team1 r);
     s3_visible := true |}.

(** Lines 181-198, one row. *)
Definition team2_trace `{Formats} (row : chart_row) : scatter3d :=
  let r := stats row in
  {| s3_x := [total_attempts_team2 r];
     s3_y := [possession_team2 row];
     s3_z := [number_of_goals_team2 r];
     s3_size := on_target_attempts_team2 r;
     s3_name := match_name row;
     s3_text := str_label (team2 r) ++ " (" ++ str_label (date row) ++ ")";
     s3_hovertemplate :=
       hover_text (team2 r) (total_attempts_team2 r) (possession_team2 row)
         (number_of_goals_team2 r) (on_target_attempts_team2 r);
     s3_visible := false |}.

(** The traces of the figure after both loops. *)
Definition fig2_traces `{Formats} (df : list chart_row) : list scatter3d :=
  map team1_trace df ++ map team2_trace df.

(** Lines 201-212: the label of each button and the visibility it sets,
    one flag per trace. *)
Definition fig2_buttons (df : list chart_row) : list (string * list bool) :=
  [ ("Team 1"%string,
     map (λ i, bool_decide (i < length df)%nat) (seq 0 (length df * 2)));
    ("Team 2"%string,
     map (λ i, bool_decide (length df ≤ i)%nat) (seq 0 (length df * 2))) ].

(** What a button's update leaves on screen: the traces whose flag is
    set. *)
Definition shown {A} (visible : list bool) (traces : list A) : list A :=
  (zip visible traces) ≫= λ vt : bool * A, if vt.1 then [vt.2] else [].

(** ** The animated bubble chart (app.py, lines 235-417) *)

Definition color_map : gmap string string :=
  list_to_map
    [ ("Australia", "#1f77b4"); ("Iran", "#ff7f0e"); ("Japan", "#2ca02c");
      ("Qatar", "#d62728"); ("Saudi Arabia", "#9467bd");
      ("South Korea", "#8c564b"); ("Cameroon", "#e377c2"); ("Ghana", "#7f7f7f");
      ("Morocco", "#bcbd22"); ("Senegal", "#17becf"); ("Tunisia", "#1f77b4");
      ("Canada", "#ff7f0e"); ("Costa Rica", "#2ca02c"); ("Mexico", "#d62728");
      ("United States", "#9467bd"); ("Argentina", "#8c564b");
      ("Brazil", "#e377c2"); ("Ecuador", "#7f7f7f"); ("Uruguay", "#bcbd22");
      ("Belgium", "#17becf"); ("Croatia", "#1f77b4"); ("Denmark", "#ff7f0e");
      ("England", "#2ca02c"); ("France", "#d62728"); ("Germany", "#9467bd");
      ("Netherlands", "#8c564b"); ("Poland", "#e377c2"); ("Portugal", "#7f7f7f");
      ("Serbia", "#bcbd22"); ("Spain", "#17becf"); ("Switzerland", "#1f77b4");
      ("Wales", "#ff7f0e") ]%string.

(** [color_map.get(team, '#000000')]. *)
Definition team_color (team : label) : string :=
  default "#000000"%string (team ≫= λ name, color_map !! name).

(** Line 246: [df_sorted = df.sort_values('ts')]. *)
Definition df_sorted (df : list chart_row) : list chart_row :=
  take (argsort (map ts df)) df.

(** [Series.unique()] on the timestamps: first appearances, NaT once. *)
Fixpoint unique_ts_from (seen l : list (option Z)) : list (option Z) :=
  match l with
  | [] => []
  | x :: l' =>
      if bool_decide (x ∈ seen) then unique_ts_from seen l'
      else x :: unique_ts_from (x :: seen) l'
  end.

Definition unique_ts (l : list (option Z)) : list (option Z) := unique_ts_from [] l.

(** Element-wise [==] on timestamps: NaT equals nothing. *)
Definition ts_eq (x y : option Z) : bool :=
  match x, y with
  | Some a, Some b => a =? b
  | _, _ => false
  end.

(** Line 389: [df_sorted[df_sorted['ts'] == date]]. *)
Definition frame_rows (sorted : list chart_row) (d : option Z) : list chart_row :=
  List.filter (λ r, ts_eq (ts r) d) sorted.

(** A [go.Scatter] of a frame; [mode], the same on every trace, is not
    carried. *)
Record scatter := {
  sc_x : list label;
  sc_y : list Z;
  sc_size : list Z;
  sc_color : list string
}.

Record frame := {
  frame_name : string;
  frame_data : list scatter
}.

(** Lines 388-414, one date. *)
Definition date_frame `{Formats} (sorted : list chart_row) (d : option Z) : frame :=
  let fd := frame_rows sorted d in
  {| frame_name := str_datetime d;
     frame_data :=
       [ {| sc_x := map (λ r, team1 (stats r)) fd;
            sc_y := map (λ r, number_of_goals_team1 (stats r)) fd;
            sc_size := map (λ r, total_attempts_team1 (stats r)) fd;
            sc_color := map (λ r, team_color (team1 (stats r))) fd |};
         {| sc_x := map (λ r, team2 (stats r)) fd;
            sc_y := map (λ r, number_of_goals_team2 (stats r)) fd;
            sc_size := map (λ r, total_attempts_team2 (stats r)) fd;
            sc_color := map (λ r, team_color (team2 (stats r))) fd |} ] |}.

Definition fig3_frames `{Formats} (df : list chart_row) : list frame :=
  map (date_frame (df_sorted df)) (unique_ts (map ts (df_sorted df))).

(** A step of the slider: the frame it animates to and its label. *)
Record slider_step := {
  step_frame : string;
  step_label : string
}.

(** Lines 376-382. *)
Definition slider_steps `{Formats} (df : list chart_row) : list slider_step :=
  map (λ d, {| step_frame := str_datetime d; step_label := str_datetime d |})
      (unique_ts (map ts (df_sorted df))).

(** Line 259: the upper end of [range_y], the largest team-1 goal count
    plus two; an empty column has no largest value. *)
Definition range_y_upper (sorted : list chart_row) : option Z :=
  match map (λ r, number_of_goals_team1 (stats r)) sorted with
  | [] => None
  | g :: gs => Some (foldr Z.max g gs + 2)
  end.

(** Renderings for the examples: integers in decimal, floats with two
    decimals, a timestamp as its day number. *)
Definition decimal_int (n : Z) : string :=
  NilZero.string_of_int (Z.to_int n).

Definition two_decimals (x : float) : string :=
  match x with
  | Finite q =>
      let k := Z.abs (rint (q * 100)) in
      let sign : string := if Qlt_le_dec q 0 then "-" else "" in
      let pad : string := if k `mod` 100 <? 10 then "0" else "" in
      sign ++ decimal_int (k / 100) ++ "." ++ pad ++ decimal_int (k `mod` 100)
  | Inf negative => if negative then "-inf" else "inf"
  | NaN => "nan"
  end.

(** [str] of a float with at most one decimal. *)
Definition one_decimal (x : float) : string :=
  match x with
  | Finite q =>
      let k := Z.abs (rint (q * 10)) in
      let sign : string := if Qlt_le_dec q 0 then "-" else "" in
      sign ++ decimal_int (k / 10) ++ "." ++ decimal_int (k `mod` 10)
  | Inf negative => if negative then "-inf" else "inf"
  | NaN => "nan"
  end.

Definition sample_formats : Formats :=
  {| format_2f := two_decimals;
     str_float := one_decimal;
     str_int := decimal_int;
     str_datetime := λ d, match d with Some t => decimal_int t | None => "NaT" end |}.

(** A table with empty team and category fields. *)
Definition sample_with_gaps : table :=
  [ mk_row "QATAR" "ECUADOR" "Group A" 2 1 0 1 0 2 0 1;
    {| team1 := None; team2 := Some "IRAN"%string; category := Some "Group B"%string;
       total_attempts_team1 := 13; total_attempts_team2 := 8;
       on_target_attempts_team1 := 7; on_target_attempts_team2 := 3;
       number_of_goals_team1 := 6; number_of_goals_team2 := 2;
       assists_team1 := 6; assists_team2 := 1 |};
    {| team1 := Some "QATAR"%string; team2 := Some "SENEGAL"%string; category := None;
       total_attempts_team1 := 10; total_attempts_team2 := 14;
       on_target_attempts_team1 := 3; on_target_attempts_team2 := 5;
       number_of_goals_team1 := 1; number_of_goals_team2 := 3;
       assists_team1 := 1; assists_team2 := 2 |} ].

(** The rows of [sample] as the charts read them. *)
Definition chart_sample : list chart_row :=
  zip_with
    (λ (r : match_row) (d : string * Z * Z * Z),
       {| stats := r; date := Some d.1.1.1; ts := Some d.1.1.2;
          possession_team1 := Finite (inject_Z d.1.2);
          possession_team2 := Finite (inject_Z d.2) |})
    sample
    [ ("20 NOV 2022"%string, 752545, 42, 50);
      ("21 NOV 2022"%string, 752546, 72, 19);
      ("25 NOV 2022"%string, 752550, 42, 46) ].

(** ** Rectangular frames *)

Definition series_length (s : Series) : nat :=
  match s with
  | ObjectS v => length v
  | Int64S v => length v
  | Float64S v => length v
  | Datetime64S v => length v
  end.

(** Every column has [n] rows, as in a frame read from a file. *)
Definition rectangular (n : nat) (df : DataFrame) : Prop :=
  Forall (λ cs : string * Series, series_length cs.2 = n) df.

(** The columns the aggregation reads. *)
Definition aggregation_columns : list string :=
  [ "team1"; "team2"; "category"; "total_attempts_team1"; "total_attempts_team2";
    "on_target_attempts_team1"; "on_target_attempts_team2";
    "number_of_goals_team1"; "number_of_goals_team2";
    "assists_team1"; "assists_team2" ]%string.

(** Row [i] of eleven columns, as [rows_of] assembles it. *)
Definition row_at (t1 t2 ct : list label) (a1 a2 o1 o2 g1 g2 s1 s2 : list Z)
    (i : nat) : option match_row :=
  x1 ← t1 !! i; x2 ← t2 !! i; x3 ← ct !! i;
  x4 ← a1 !! i; x5 ← a2 !! i; x6 ← o1 !! i; x7 ← o2 !! i;
  x8 ← g1 !! i; x9 ← g2 !! i; x10 ← s1 !! i; x11 ← s2 !! i;
  Some {| team1 := x1; team2 := x2; category := x3;
          total_attempts_team1 := x4; total_attempts_team2 := x5;
          on_target_attempts_team1 := x6; on_target_attempts_team2 := x7;
          number_of_goals_team1 := x8; number_of_goals_team2 := x9;
          assists_team1 := x10; assists_team2 := x11 |}.

(** * Properties *)

(** ** Facts about [unique], sums and selections *)

Lemma unique_from_elem (seen l : list label) (x : label) :
  x ∈ unique_from seen l ↔ x ∈ l ∧ x ∉ seen.
Proof.
  revert seen. induction l as [|y l IH]; intros seen; simpl.
  - rewrite elem_of_nil. tauto.
  - case_bool_decide as Hy.
    + rewrite IH, elem_of_cons. split; [tauto|].
      intros [[->|Hx] Hs]; [done | tauto].
    + rewrite !elem_of_cons, IH, elem_of_cons. split.
      * intros [->|[Hx Hs]]; tauto.
      * destruct (decide (x = y)); tauto.
Qed.

Lemma unique_elem (l : list label) (x : label) : x ∈ unique l ↔ x ∈ l.
Proof.
  unfold unique. rewrite unique_from_elem. split; [tauto|].
  intros Hx. split; [done | apply not_elem_of_nil].
Qed.

Lemma unique_from_NoDup (seen l : list label) : NoDup (unique_from seen l).
Proof.
  revert seen. induction l as [|y l IH]; intros seen; simpl.
  - constructor.
  - case_bool_decide as Hy; [apply IH|].
    constructor; [|apply IH].
    rewrite unique_from_elem, elem_of_cons. tauto.
Qed.

Lemma unique_NoDup (l : list label) : NoDup (unique l).
Proof. apply unique_from_NoDup. Qed.

Lemma elem_eq_true (x y : label) :
  elem_eq x y = true ↔ ∃ s, x = Some s ∧ y = Some s.
Proof.
  destruct x as [a|], y as [b|]; simpl; try (split; [discriminate | intros (s & ? & ?); discriminate]).
  rewrite bool_decide_eq_true. split.
  - intros ->. eauto.
  - intros (s & ? & ?). congruence.
Qed.

Lemma elem_eq_Some (x : label) (s : string) :
  elem_eq x (Some s) = bool_decide (x = Some s).
Proof.
  destruct x as [a|]; simpl; [|done].
  apply bool_decide_ext. split; congruence.
Qed.

Lemma category_data_spec_rows (df : table) (cat team : label) :
  category_data df cat team = spec_rows df cat team.
Proof.
  unfold category_data, team_data, spec_rows.
  induction df as [|r df IH]; simpl; [done|].
  destruct (elem_eq (team1 r) team || elem_eq (team2 r) team); simpl;
    destruct (elem_eq (category r) cat); simpl; by rewrite ?IH.
Qed.

Lemma col_sum_app (col : match_row → Z) (l1 l2 : table) :
  col_sum col (l1 ++ l2) = col_sum col l1 + col_sum col l2.
Proof. unfold col_sum. induction l1; simpl; lia. Qed.

Lemma col_sum_Permutation (col : match_row → Z) (l1 l2 : table) :
  Permutation l1 l2 → col_sum col l1 = col_sum col l2.
Proof. unfold col_sum. induction 1; simpl; lia. Qed.

Lemma col_sum_nonneg (col : match_row → Z) (l : table) :
  (∀ r, r ∈ l → 0 <= col r) → 0 <= col_sum col l.
Proof.
  unfold col_sum. induction l as [|r l IH]; simpl; intros H; [lia|].
  assert (0 <= col r) by (apply H; left).
  assert (0 <= foldr (λ r acc, col r + acc) 0 l) by (apply IH; intros; apply H; by right).
  lia.
Qed.

Lemma col_sum_le (c1 c2 : match_row → Z) (l : table) :
  (∀ r, r ∈ l → c1 r <= c2 r) → col_sum c1 l <= col_sum c2 l.
Proof.
  unfold col_sum. induction l as [|r l IH]; simpl; intros H; [lia|].
  assert (c1 r <= c2 r) by (apply H; left).
  assert (foldr (λ r acc, c1 r + acc) 0 l <= foldr (λ r acc, c2 r + acc) 0 l)
    by (apply IH; intros; apply H; by right).
  lia.
Qed.

(** ** The dictionary built by the outer loop *)

Lemma foldl_insert_lookup {V} (f : label → V) (l : list label)
    (m : gmap label V) (k : label) :
  foldl (λ m c, <[c := f c]> m) m l !! k
  = if decide (k ∈ l) then Some (f k) else m !! k.
Proof.
  revert m. induction l as [|c l IH]; intros m.
  - simpl. destruct (decide (k ∈ [])) as [[]%elem_of_nil|]; done.
  - simpl foldl. rewrite IH.
    destruct (decide (k ∈ l)) as [Hin|Hnin],
             (decide (k ∈ c :: l)) as [Hin'|Hnin']; try done.
    + exfalso. apply Hnin'. by right.
    + apply elem_of_cons in Hin' as [->|]; [|done].
      apply lookup_insert_eq.
    + apply lookup_insert_ne. intros ->. apply Hnin'. by left.
Qed.

Lemma metrics_lookup (df : table) (cat : label) :
  metrics df !! cat
  = if decide (cat ∈ categories df) then Some (category_metrics df cat) else None.
Proof. unfold metrics. by rewrite foldl_insert_lookup, lookup_empty. Qed.

Lemma find_team_metrics (df : table) (cat team : label) (ts : list label) :
  List.find (λ r, bool_decide (Team r = team)) (map (team_metrics df cat) ts)
  = if decide (team ∈ ts) then Some (team_metrics df cat team) else None.
Proof.
  induction ts as [|t ts IH].
  - simpl. destruct (decide (team ∈ [])) as [[]%elem_of_nil|]; done.
  - cbn [map List.find].
    assert (Team (team_metrics df cat t) = t) as ->
      by (unfold team_metrics; by destruct (category_data df cat t)).
    case_bool_decide as Ht.
    + subst t. destruct (decide (team ∈ team :: ts)) as [|Hn]; [done|].
      exfalso. apply Hn. by left.
    + rewrite IH.
      destruct (decide (team ∈ ts)) as [Hin|Hnin],
               (decide (team ∈ t :: ts)) as [Hin'|Hnin']; try done.
      * exfalso. apply Hnin'. by right.
      * apply elem_of_cons in Hin' as [->|]; done.
Qed.

Lemma lookup_record_metrics (df : table) (cat team : label) :
  lookup_record (metrics df) cat team
  = if decide (cat ∈ categories df ∧ team ∈ teams df)
    then Some (team_metrics df cat team) else None.
Proof.
  unfold lookup_record. rewrite metrics_lookup.
  destruct (decide (cat ∈ categories df)) as [Hc|Hc]; simpl.
  - unfold category_metrics. rewrite find_team_metrics.
    destruct (decide (team ∈ teams df)),
             (decide (cat ∈ categories df ∧ team ∈ teams df)); tauto || done.
  - destruct (decide (cat ∈ categories df ∧ team ∈ teams df)); tauto || done.
Qed.

Lemma teams_elem (df : table) (team : label) :
  team ∈ teams df ↔ team ∈ map team1 df ++ map team2 df.
Proof. apply unique_elem. Qed.

Lemma categories_elem (df : table) (cat : label) :
  cat ∈ categories df ↔ cat ∈ map category df.
Proof. apply unique_elem. Qed.

Lemma team_metrics_counts (df : table) (cat team : label) :
  let rows := spec_rows df cat team in
  Team (team_metrics df cat team) = team
  ∧ Total_Attempts (team_metrics df cat team) = spec_total_attempts rows
  ∧ Goals (team_metrics df cat team) = spec_goals rows
  ∧ Assists (team_metrics df cat team) = spec_assists rows.
Proof.
  unfold team_metrics. rewrite category_data_spec_rows.
  destruct (spec_rows df cat team); simpl; done.
Qed.

(** ** Rounding *)

Lemma rint_spec (q : Q) :
  (inject_Z (rint q) - (1 # 2) <= q)%Q ∧ (q <= inject_Z (rint q) + (1 # 2))%Q.
Proof.
  unfold rint.
  pose proof (Qfloor_le q) as Hlo. pose proof (Qlt_floor q) as Hhi.
  rewrite inject_Z_plus in Hhi. change (inject_Z 1) with 1%Q in Hhi.
  destruct (q - inject_Z (Qfloor q) ?= 1 # 2)%Q eqn:Hc.
  - apply Qeq_alt in Hc. destruct (Z.even (Qfloor q)).
    + split; lra.
    + rewrite inject_Z_plus. change (inject_Z 1) with 1%Q. split; lra.
  - apply Qlt_alt in Hc. split; lra.
  - apply Qgt_alt in Hc. rewrite inject_Z_plus. change (inject_Z 1) with 1%Q.
    split; lra.
Qed.

Lemma rint_range (q : Q) (lo hi : Z) :
  (inject_Z lo <= q)%Q → (q <= inject_Z hi)%Q → lo <= rint q <= hi.
Proof.
  intros Hlo Hhi. destruct (rint_spec q) as [H1 H2]. split.
  - destruct (Z_le_gt_dec lo (rint q)) as [|Hgt]; [done|].
    assert (rint q + 1 <= lo) as Hle by lia.
    rewrite Zle_Qle in Hle.
    rewrite inject_Z_plus in Hle. change (inject_Z 1) with 1%Q in Hle. lra.
  - destruct (Z_le_gt_dec (rint q) hi) as [|Hgt]; [done|].
    assert (hi + 1 <= rint q) as Hle by lia.
    rewrite Zle_Qle in Hle.
    rewrite inject_Z_plus in Hle. change (inject_Z 1) with 1%Q in Hle. lra.
Qed.

Lemma round2_nearest (x : Q) :
  ∃ q, round2 (Finite x) = Finite q ∧ nearest_hundredth x q.
Proof.
  eexists. split; [reflexivity|].
  exists (rint (x * 100)). split; [reflexivity|].
  destruct (rint_spec (x * 100)) as [H1 H2]. split; lra.
Qed.

(** ** The contract of one (team, category) record *)

Lemma spec_rows_nil (df : table) (cat team : label) :
  (∀ r, r ∈ df →
        ¬ (elem_eq (category r) cat = true
           ∧ (elem_eq (team1 r) team = true ∨ elem_eq (team2 r) team = true))) →
  spec_rows df cat team = [].
Proof.
  unfold spec_rows. induction df as [|r df IH]; simpl; intros Hnone; [done|].
  destruct (elem_eq (category r) cat
            && (elem_eq (team1 r) team || elem_eq (team2 r) team)) eqn:Hsel.
  - exfalso. apply (Hnone r); [by left|].
    apply andb_true_iff in Hsel as [? Hor]. apply orb_true_iff in Hor. tauto.
  - apply IH. intros r' Hr'. apply Hnone. by right.
Qed.

(** C3: a (team, category) pair that no row of the table matches gets the
    all-zero record. *)
Theorem empty_selection_all_zero (df : table) (cat team : label) :
  cat ∈ categories df → team ∈ teams df →
  (∀ r, r ∈ df →
        ¬ (elem_eq (category r) cat = true
           ∧ (elem_eq (team1 r) team = true ∨ elem_eq (team2 r) team = true))) →
  lookup_record (metrics df) cat team
  = Some {| Team := team; Total_Attempts := 0; On_Target_pct := Finite 0;
            Goals := 0; Assists := 0 |}.
Proof.
  intros Hc Ht Hnone. rewrite lookup_record_metrics.
  destruct (decide (cat ∈ categories df ∧ team ∈ teams df)) as [_|Hn]; [|tauto].
  f_equal. unfold team_metrics. rewrite category_data_spec_rows.
  by rewrite (spec_rows_nil df cat team Hnone).
Qed.

Lemma empty_selection_all_zero_witness :
  lookup_record (metrics sample) (Some "Group B"%string) (Some "QATAR"%string)
  = Some {| Team := Some "QATAR"%string; Total_Attempts := 0;
            On_Target_pct := Finite 0; Goals := 0; Assists := 0 |}.
Proof.
  apply (empty_selection_all_zero sample).
  - apply categories_elem. simpl. right. left.
  - apply teams_elem. simpl. left.
  - intros r Hr. unfold sample in Hr.
    repeat (apply elem_of_cons in Hr as [->|Hr]);
      [| | | by apply elem_of_nil in Hr]; vm_compute; intros [? [?|?]]; discriminate.
Defined.




(** ** The division and its guard *)

(** The guard tests only whether rows were selected. *)
Lemma division_denominator_Some (df : table) (cat team : label) :
  spec_rows df cat team ≠ [] →
  division_denominator df cat team
  = Some (spec_total_attempts (spec_rows df cat team)).
Proof.
  intros Hne. unfold division_denominator. rewrite category_data_spec_rows.
  by destruct (spec_rows df cat team).
Qed.

Lemma division_denominator_None (df : table) (cat team : label) :
  division_denominator df cat team = None ↔ spec_rows df cat team = [].
Proof.
  unfold division_denominator. rewrite category_data_spec_rows.
  by destruct (spec_rows df cat team).
Qed.

(** C2, the code at a match without attempts: rows are selected, the
    guard lets them through, the denominator is zero and the record
    carries NaN. *)
Theorem division_by_zero_on_no_attempts :
  Some "Group A"%string ∈ categories no_attempts
  ∧ Some "QATAR"%string ∈ teams no_attempts
  ∧ division_denominator no_attempts (Some "Group A"%string) (Some "QATAR"%string)
    = Some 0
  ∧ lookup_record (metrics no_attempts) (Some "Group A"%string) (Some "QATAR"%string)
    = Some {| Team := Some "QATAR"%string; Total_Attempts := 0;
              On_Target_pct := NaN; Goals := 0; Assists := 0 |}
  ∧ ¬ division_guarded no_attempts.
Proof.
  assert (Some "Group A"%string ∈ categories no_attempts) as Hc
    by (apply categories_elem; simpl; left).
  assert (Some "QATAR"%string ∈ teams no_attempts) as Ht
    by (apply teams_elem; simpl; left).
  repeat split; try done.
  intros Hg. by apply (Hg _ _ 0 Hc Ht).
Qed.

(** ** Bounds *)

Lemma Forall_spec_rows (P : match_row → Prop) (df : table) (cat team : label) :
  (∀ r, r ∈ df → P r) → ∀ r, r ∈ spec_rows df cat team → P r.
Proof.
  intros H r Hr. apply H. unfold spec_rows in Hr.
  apply list_elem_of_In, filter_In in Hr as [Hr _]. by apply list_elem_of_In.
Qed.


(** C8, the code at a match without attempts: every row satisfies the
    premise, yet the percentage of the record is NaN, outside [0, 100]. *)
Theorem bounds_fail_on_no_attempts :
  (∀ r, r ∈ no_attempts → on_target_within_attempts r)
  ∧ (∃ rec,
       lookup_record (metrics no_attempts) (Some "Group A"%string)
         (Some "ECUADOR"%string) = Some rec
       ∧ On_Target_pct rec = NaN)
  ∧ ¬ bounds_hold no_attempts.
Proof.
  split; [|split].
  - intros r Hr. apply list_elem_of_singleton in Hr as ->.
    unfold on_target_within_attempts. simpl. lia.
  - eexists. split; [by vm_compute|done].
  - intros Hb.
    destruct (Hb (Some "Group A"%string) (Some "ECUADOR"%string) _ eq_refl)
      as [(q & Hq & _) _].
    discriminate Hq.
Qed.

(** ** Row order *)

Lemma filter_Permutation_bool {A} (p : A → bool) (l1 l2 : list A) :
  Permutation l1 l2 → Permutation (List.filter p l1) (List.filter p l2).
Proof.
  induction 1 as [|x l1 l2 _ IH|x y l|l1 l2 l3 _ IH1 _ IH2]; simpl.
  - constructor.
  - destruct (p x); [by constructor | done].
  - destruct (p x), (p y); try done; by constructor.
  - by etransitivity.
Qed.

Lemma elem_of_Permutation_list {A} (l1 l2 : list A) (x : A) :
  Permutation l1 l2 → x ∈ l1 ↔ x ∈ l2.
Proof.
  intros Hp. rewrite !list_elem_of_In. split.
  - by apply Permutation_in.
  - apply Permutation_in. by symmetry.
Qed.

Lemma teams_Permutation (df df' : table) (team : label) :
  Permutation df df' → team ∈ teams df ↔ team ∈ teams df'.
Proof.
  intros Hp. rewrite !teams_elem. apply elem_of_Permutation_list.
  apply Permutation_app; by apply Permutation_map.
Qed.

Lemma categories_Permutation (df df' : table) (cat : label) :
  Permutation df df' → cat ∈ categories df ↔ cat ∈ categories df'.
Proof.
  intros Hp. rewrite !categories_elem. apply elem_of_Permutation_list.
  by apply Permutation_map.
Qed.

Lemma team_metrics_Permutation (df df' : table) (cat team : label) :
  Permutation df df' → team_metrics df cat team = team_metrics df' cat team.
Proof.
  intros Hp.
  assert (Permutation (category_data df cat team) (category_data df' cat team))
    as Hcd by (unfold category_data, team_data; by do 2 apply filter_Permutation_bool).
  unfold team_metrics.
  destruct (category_data df cat team) as [|r cd] eqn:E,
           (category_data df' cat team) as [|r' cd'] eqn:E'.
  - done.
  - by apply Permutation_nil in Hcd.
  - symmetry in Hcd. by apply Permutation_nil in Hcd.
  - by rewrite !(col_sum_Permutation _ _ _ Hcd).
Qed.

Lemma lookup_record_Permutation (df df' : table) (cat team : label) :
  Permutation df df' →
  lookup_record (metrics df) cat team = lookup_record (metrics df') cat team.
Proof.
  intros Hp. rewrite !lookup_record_metrics.
  pose proof (teams_Permutation df df' team Hp).
  pose proof (categories_Permutation df df' cat Hp).
  destruct (decide (cat ∈ categories df ∧ team ∈ teams df)),
           (decide (cat ∈ categories df' ∧ team ∈ teams df')); try tauto.
  f_equal. by apply team_metrics_Permutation.
Qed.

(** The sort of line 14 is such a reordering. *)

Lemma insert_by_Permutation (x : option Z * nat) (l : list (option Z * nat)) :
  Permutation (insert_by x l) (x :: l).
Proof.
  induction l as [|y l IH]; simpl; [done|].
  destruct (key_le x.1 y.1); [done|].
  rewrite IH. apply perm_swap.
Qed.

Lemma argsort_Permutation (keys : list (option Z)) :
  Permutation (argsort keys) (seq 0 (length keys)).
Proof.
  unfold argsort.
  assert (∀ l : list (option Z * nat), Permutation (foldr insert_by [] l) l) as Hsort.
  { induction l as [|x l IH]; simpl; [done|].
    by rewrite insert_by_Permutation, IH. }
  rewrite Hsort. change (map snd ?l) with (l.*2).
  rewrite snd_zip; [done|]. by rewrite length_seq.
Qed.

Lemma take_seq {A} (pre l : list A) :
  take (seq (length pre) (length l)) (pre ++ l) = l.
Proof.
  unfold take. revert pre. induction l as [|x l IH]; intros pre; simpl; [done|].
  rewrite list_lookup_middle by done. f_equal.
  specialize (IH (pre ++ [x])). rewrite length_app, <- app_assoc in IH. simpl in IH.
  by rewrite Nat.add_1_r in IH.
Qed.

Lemma take_Permutation {A} (idx : list nat) (l : list A) :
  Permutation idx (seq 0 (length l)) → Permutation (take idx l) l.
Proof.
  intros Hp. pose proof (take_seq [] l) as Hs. unfold take in *.
  simpl in Hs. by rewrite Hp, Hs.
Qed.

(** C9: reordering the rows of the table changes no (team, category)
    record; in particular sorting the rows by a column of dates changes
    none. *)
Theorem metrics_permutation_invariant (df df' : table) :
  Permutation df df' →
  (∀ cat team,
     lookup_record (metrics df) cat team = lookup_record (metrics df') cat team)
  ∧ (∀ keys cat team,
       length keys = length df →
       lookup_record (metrics (take (argsort keys) df)) cat team
       = lookup_record (metrics df) cat team).
Proof.
  intros Hp. split.
  - intros cat team. by apply lookup_record_Permutation.
  - intros keys cat team Hlen. apply lookup_record_Permutation.
    apply take_Permutation. rewrite <- Hlen. apply argsort_Permutation.
Qed.

Lemma metrics_permutation_invariant_witness :
  Permutation sample (rev sample)
  ∧ lookup_record (metrics sample) (Some "Group A"%string) (Some "QATAR"%string)
    = lookup_record (metrics (rev sample)) (Some "Group A"%string)
        (Some "QATAR"%string).
Proof.
  split; [apply Permutation_rev|].
  apply (metrics_permutation_invariant sample (rev sample)).
  apply Permutation_rev.
Defined.

(** ** Categories partition the statistics *)

Lemma sum_over_ext (f g : label → Z) (cs : list label) :
  (∀ c, c ∈ cs → f c = g c) → sum_over f cs = sum_over g cs.
Proof.
  unfold sum_over. induction cs as [|c cs IH]; simpl; intros H; [done|].
  rewrite (H c) by (by left). rewrite IH; [done|].
  intros c' Hc'. apply H. by right.
Qed.

Lemma sum_over_add (f g : label → Z) (cs : list label) :
  sum_over (λ c, f c + g c) cs = sum_over f cs + sum_over g cs.
Proof. unfold sum_over. induction cs; simpl; lia. Qed.

Lemma sum_over_indicator (cs : list label) (x : label) (v : Z) :
  NoDup cs →
  sum_over (λ cat, if elem_eq x cat then v else 0) cs
  = if decide (is_Some x ∧ x ∈ cs) then v else 0.
Proof.
  unfold sum_over. induction 1 as [|c cs Hc Hnd IH]; simpl.
  - destruct (decide _) as [[_ []%elem_of_nil]|]; done.
  - rewrite IH. destruct (elem_eq x c) eqn:Heq.
    + apply elem_eq_true in Heq as (s & -> & ->).
      destruct (decide (is_Some (Some s) ∧ Some s ∈ cs)) as [[_ ?]|_]; [done|].
      destruct (decide (is_Some (Some s) ∧ Some s ∈ Some s :: cs)) as [|Hn]; [lia|].
      exfalso. apply Hn. split; [by eexists | by left].
    + destruct (decide (is_Some x ∧ x ∈ cs)) as [[Hs Hin]|Hn],
               (decide (is_Some x ∧ x ∈ c :: cs)) as [[Hs' Hin']|Hn']; try lia.
      * exfalso. apply Hn'. split; [done | by right].
      * exfalso. apply elem_of_cons in Hin' as [->|Hin']; [|tauto].
        destruct Hs' as [s ->]. simpl in Heq.
        by rewrite bool_decide_eq_true_2 in Heq.
Qed.

Lemma sum_over_categories (col : match_row → Z) (cs : list label) (rows : table) :
  NoDup cs →
  (∀ r, r ∈ rows → is_Some (category r) ∧ category r ∈ cs) →
  sum_over (λ cat, col_sum col (List.filter (λ r, elem_eq (category r) cat) rows)) cs
  = col_sum col rows.
Proof.
  intros Hnd. induction rows as [|r rows IH]; intros Hrows.
  - clear. unfold sum_over. induction cs as [|c cs IHcs]; simpl in *; [done|].
    by rewrite IHcs.
  - rewrite (sum_over_ext _
      (λ cat, (if elem_eq (category r) cat then col r else 0)
              + col_sum col (List.filter (λ r, elem_eq (category r) cat) rows))).
    2:{ intros c _. simpl. by destruct (elem_eq (category r) c). }
    rewrite sum_over_add, sum_over_indicator by done.
    rewrite IH by (intros; apply Hrows; by right).
    destruct (decide _) as [|Hn]; [done|].
    exfalso. apply Hn, Hrows. by left.
Qed.

Lemma team_data_elem (df : table) (team : label) (r : match_row) :
  r ∈ team_data df team → r ∈ df.
Proof.
  unfold team_data. rewrite !list_elem_of_In, filter_In. tauto.
Qed.

Lemma record_field_metrics (field : metric_row → Z) (df : table) (cat team : label) :
  cat ∈ categories df → team ∈ teams df →
  record_field field (metrics df) cat team = field (team_metrics df cat team).
Proof.
  intros Hc Ht. unfold record_field. rewrite lookup_record_metrics.
  destruct (decide _); [done | tauto].
Qed.

Lemma team_metrics_sums (df : table) (cat team : label) :
  let cd := category_data df cat team in
  Total_Attempts (team_metrics df cat team)
  = col_sum total_attempts_team1 cd + col_sum total_attempts_team2 cd
  ∧ Goals (team_metrics df cat team)
    = col_sum number_of_goals_team1 cd + col_sum number_of_goals_team2 cd
  ∧ Assists (team_metrics df cat team)
    = col_sum assists_team1 cd + col_sum assists_team2 cd.
Proof. unfold team_metrics. by destruct (category_data df cat team). Qed.



(** ** Row visits of the aggregation *)

Lemma team_metrics_c_spec (df : table) (cat team : label) :
  (team_metrics_c df cat team).1 = team_metrics df cat team
  ∧ ((team_metrics_c df cat team).2 ≤ 12 * length df)%nat.
Proof.
  unfold team_metrics_c, team_metrics, category_data, team_data, select_c, sum_c.
  set (td := List.filter _ df).
  assert (length td ≤ length df)%nat as Htd by apply filter_length_le.
  cbn [mbind counted_bind].
  set (cd := List.filter _ td).
  assert (length cd ≤ length td)%nat as Hcd by apply filter_length_le.
  destruct cd as [|r cd'] eqn:E; cbn [mbind counted_bind mret counted_ret fst snd].
  - split; [done | lia].
  - split; [done|]. cbn [length] in *. lia.
Qed.

Lemma category_metrics_c_spec (df : table) (cat : label) (ts : list label) :
  (category_metrics_c df cat ts).1 = map (team_metrics df cat) ts
  ∧ ((category_metrics_c df cat ts).2 ≤ length ts * (12 * length df))%nat.
Proof.
  induction ts as [|t ts [IH1 IH2]]; [split; simpl; [done | lia]|].
  cbn [category_metrics_c mbind counted_bind].
  destruct (team_metrics_c_spec df cat t) as [H1 H2].
  destruct (team_metrics_c df cat t) as [rec n].
  destruct (category_metrics_c df cat ts) as [recs k].
  cbn [mbind counted_bind mret counted_ret fst snd map length] in *. subst.
  split; [done | lia].
Qed.

Lemma metrics_c_foldl (df : table) (cs : list label)
    (acc : counted (gmap label (list metric_row))) :
  let step := λ (acc : counted (gmap label (list metric_row))) cat,
      m ← acc; recs ← category_metrics_c df cat (teams df); mret (<[cat := recs]> m) in
  (foldl step acc cs).1
  = foldl (λ m cat, <[cat := category_metrics df cat]> m) acc.1 cs
  ∧ ((foldl step acc cs).2
     ≤ acc.2 + length cs * (length (teams df) * (12 * length df)))%nat.
Proof.
  intros step. revert acc. induction cs as [|c cs IH]; intros [m n].
  - simpl. split; [done | lia].
  - cbn [foldl]. destruct (IH (step (m, n) c)) as [IH1 IH2].
    rewrite IH1. clear IH1.
    assert (step (m, n) c
            = (<[c := category_metrics df c]> m,
               (n + (category_metrics_c df c (teams df)).2)%nat)) as Hstep.
    { unfold step. destruct (category_metrics_c_spec df c (teams df)) as [H1 _].
      destruct (category_metrics_c df c (teams df)) as [recs k].
      cbn [mbind counted_bind mret counted_ret fst snd] in *.
      subst recs. f_equal. lia. }
    rewrite Hstep in *. cbn [fst snd length] in *.
    destruct (category_metrics_c_spec df c (teams df)) as [_ H2].
    split; [done | lia].
Qed.

(** C7: the aggregation returns a result for every table, and the number
    of row visits it makes is at most
    12 x categories x teams x rows. *)
Theorem metrics_row_visits (df : table) :
  (metrics_c df).1 = metrics df
  ∧ ((metrics_c df).2
     ≤ 12 * (length (categories df) * length (teams df) * length df))%nat.
Proof.
  unfold metrics_c, metrics.
  destruct (metrics_c_foldl df (categories df) (mret ∅)) as [H1 H2].
  split; [exact H1|].
  cbn [mret counted_ret snd] in H2. lia.
Qed.

(** ** Validation *)

Lemma missing_columns_elem (df : DataFrame) (col : string) :
  col ∈ missing_columns df ↔ col ∈ required_columns ∧ col ∉ columns df.
Proof.
  unfold missing_columns. rewrite list_elem_of_In, filter_In, <- list_elem_of_In.
  rewrite negb_true_iff, bool_decide_eq_false. tauto.
Qed.

Lemma missing_columns_nil (df : DataFrame) :
  missing_columns df = [] ↔ ∀ col, col ∈ required_columns → col ∈ columns df.
Proof.
  split.
  - intros Hnil col Hreq. destruct (decide (col ∈ columns df)) as [|Hn]; [done|].
    assert (col ∈ missing_columns df) as Hin by (by apply missing_columns_elem).
    rewrite Hnil in Hin. by apply elem_of_nil in Hin.
  - intros Hall. destruct (missing_columns df) as [|col cols] eqn:E; [done|].
    assert (col ∈ missing_columns df) as Hin by (rewrite E; by left).
    apply missing_columns_elem in Hin as [Hreq Hn]. by apply Hall in Hreq.
Qed.

(** X19: the check of lines 26-28 on the frame it is given: it raises,
    with exactly the absent required columns, when one is absent, and
    passes otherwise. *)
Lemma validate_spec (g : globals) :
  ((∃ col, col ∈ required_columns ∧ col ∉ columns (g_df g))
   ↔ validate g = Raise (MissingColumns (missing_columns (g_df g))))
  ∧ ((∀ col, col ∈ required_columns → col ∈ columns (g_df g))
     ↔ validate g = Ok g).
Proof.
  unfold validate. rewrite <- missing_columns_nil.
  destruct (missing_columns (g_df g)) as [|col cols] eqn:E.
  - split; [|done]. split; [|done].
    intros (col & Hreq & Hn).
    assert (col ∈ missing_columns (g_df g)) as Hin by (by apply missing_columns_elem).
    rewrite E in Hin. by apply elem_of_nil in Hin.
  - split; [|done]. split; [done|]. intros _. exists col.
    apply missing_columns_elem. rewrite E. by left.
Qed.

(** ** The order of the stages *)

Lemma exec_app (l1 l2 : list stmt) (g : globals) :
  exec (l1 ++ l2) g
  = match exec l1 g with
    | (g', None) => exec l2 g'
    | (g', Some e) => (g', Some e)
    end.
Proof.
  revert g. induction l1 as [|st l1 IH]; intros g; simpl; [done|].
  destruct (st g); [apply IH | done].
Qed.

Lemma load_stage_metrics `{Parsers} (g : globals) :
  g_metrics (exec load_stage g).1 = g_metrics g.
Proof.
  unfold load_stage. simpl. unfold parse_dates.
  destruct (getitem (g_df g) "date") as [date|]; simpl; [|done].
  destruct (to_datetime date) as [ts|]; simpl; [|done].
  unfold sort_by_ts. simpl.
  destruct (sort_values _ "ts") as [df|]; simpl; done.
Qed.

(** X20: when the load stage completes on a frame that lacks a required
    column, the run ends at the check: the variables are those the load
    stage left, no possession column has been rewritten and no metrics
    exist. *)
Lemma validation_precedes_transform `{Parsers} (csv : DataFrame) (g : globals) :
  exec load_stage {| g_df := csv; g_metrics := None |} = (g, None) →
  missing_columns (g_df g) ≠ [] →
  run csv = (g, Some (MissingColumns (missing_columns (g_df g))))
  ∧ g_metrics g = None.
Proof.
  intros Hload Hmiss. split.
  - unfold run, script. rewrite exec_app, Hload. simpl.
    unfold validate. by destruct (missing_columns (g_df g)).
  - pose proof (load_stage_metrics {| g_df := csv; g_metrics := None |}) as Hm.
    by rewrite Hload in Hm.
Qed.

(** C4, the code on a file without a date column: the date column is
    required and absent, yet the run ends at line 11 with a KeyError and
    never reaches the check that would have listed it. *)
Theorem missing_date_raises_key_error `{Parsers} :
  "date"%string ∈ required_columns
  ∧ missing_columns (rename_columns csv_without_date) = ["date"%string]
  ∧ run csv_without_date
    = ({| g_df := csv_without_date; g_metrics := None |},
       Some (KeyError "date")).
Proof.
  split; [|split].
  - unfold required_columns. do 11 right. left.
  - by vm_compute.
  - reflexivity.
Qed.

(** C5, the code on a file without its date and hour columns: two
    required columns are absent, and the error that ends the run is not
    the validation error but the KeyError of line 11. *)
Theorem validation_error_not_raised `{Parsers} :
  missing_columns (rename_columns csv_without_date_and_hour)
  = ["date"%string; "hour"%string]
  ∧ (run csv_without_date_and_hour).2 = Some (KeyError "date")
  ∧ (run csv_without_date_and_hour).2
    ≠ Some (MissingColumns
              (missing_columns (rename_columns csv_without_date_and_hour))).
Proof.
  split; [|split].
  - by vm_compute.
  - reflexivity.
  - discriminate.
Qed.

Example run_sample_without_hour :
  (@run sample_parsers csv_without_hour).2 = Some (MissingColumns ["hour"%string])
  ∧ g_metrics (@run sample_parsers csv_without_hour).1 = None.
Proof. by vm_compute. Qed.

(** ** The possession columns *)

Lemma getitem_setitem_eq (df : DataFrame) (name : string) (s : Series) :
  getitem (setitem df name s) name = Ok s.
Proof.
  induction df as [|[c s0] df IH]; simpl.
  - by rewrite bool_decide_eq_true_2.
  - case_bool_decide as Hc; simpl.
    + by rewrite bool_decide_eq_true_2.
    + by rewrite bool_decide_eq_false_2.
Qed.

Lemma getitem_setitem_ne (df : DataFrame) (name name' : string) (s : Series) :
  name ≠ name' → getitem (setitem df name s) name' = getitem df name'.
Proof.
  intros Hne. induction df as [|[c s0] df IH]; simpl.
  - by rewrite bool_decide_eq_false_2.
  - case_bool_decide as Hc; simpl.
    + subst c. by rewrite !bool_decide_eq_false_2.
    + by rewrite IH.
Qed.

Lemma columns_setitem (df : DataFrame) (name : string) (s0 s : Series) :
  getitem df name = Ok s0 → columns (setitem df name s) = columns df.
Proof.
  unfold columns. induction df as [|[c s1] df IH]; simpl; [done|].
  case_bool_decide as Hc; simpl; [done|].
  intros Hg. f_equal. by apply IH.
Qed.

Lemma traverse_cells `{Parsers} (vals : list label) :
  if forallb cell_ok vals
  then traverse cell_to_float (map (option_map (rstrip "%")) vals)
       = Ok (map parsed_cell vals)
  else ∃ str, traverse cell_to_float (map (option_map (rstrip "%")) vals)
              = Raise (FloatConversionError str).
Proof.
  induction vals as [|v vals IH]; [done|].
  cbn [map forallb traverse option_map]. destruct v as [str|]; cbn [cell_ok].
  - destruct (str_to_float (rstrip "%" str)) as [x|] eqn:Hx.
    + rewrite bool_decide_eq_true_2 by (by eexists). cbn [andb].
      destruct (forallb cell_ok vals).
      * rewrite IH. simpl. by rewrite Hx.
      * destruct IH as [str' ->]. simpl. rewrite Hx. by eexists.
    + rewrite bool_decide_eq_false_2 by (by intros [? ?]). simpl. rewrite Hx.
      by eexists.
  - cbn [andb]. destruct (forallb cell_ok vals).
    + by rewrite IH.
    + destruct IH as [str' ->]. by eexists.
Qed.

(** One statement of lines 31-33. *)
Lemma preprocess_spec `{Parsers} (name : string) (g : globals) :
  match getitem (g_df g) name with
  | Ok (ObjectS vals) =>
      if forallb cell_ok vals
      then preprocess name g
           = Ok (set_df g (setitem (g_df g) name (Float64S (map parsed_cell vals))))
      else ∃ e, preprocess name g = Raise e
  | _ => ∃ e, preprocess name g = Raise e
  end.
Proof.
  unfold preprocess. destruct (getitem (g_df g) name) as [[vals| | |]|e]; simpl;
    try by eexists.
  pose proof (traverse_cells vals) as Ht.
  destruct (forallb cell_ok vals).
  - by rewrite Ht.
  - destruct Ht as [str ->]. by eexists.
Qed.

Lemma transform_names `{Parsers} (names : list string) (g : globals) :
  NoDup names →
  let out := exec (map preprocess names) g in
  (out.2 = None ↔ forallb (λ name, column_ok (getitem (g_df g) name)) names = true)
  ∧ (out.2 = None →
     ∀ name, name ∈ names →
       ∃ vals, getitem (g_df g) name = Ok (ObjectS vals)
               ∧ getitem (g_df out.1) name = Ok (Float64S (map parsed_cell vals)))
  ∧ (∀ name, name ∉ names → getitem (g_df out.1) name = getitem (g_df g) name)
  ∧ g_metrics out.1 = g_metrics g
  ∧ (out.2 = None → columns (g_df out.1) = columns (g_df g)).
Proof.
  intros Hnd. revert g. induction Hnd as [|n ns Hn Hnd IH]; intros g.
  { simpl. repeat split; try done. intros _ name []%elem_of_nil. }
  cbn [map exec forallb]. pose proof (preprocess_spec n g) as Hp.
  unfold column_ok at 1.
  destruct (getitem (g_df g) n) as [[vals| | |]|e0] eqn:Hget;
    try (destruct Hp as [e ->]; simpl; repeat split; done).
  destruct (forallb cell_ok vals) eqn:Hok;
    [|destruct Hp as [e ->]; simpl; repeat split; done].
  rewrite Hp. simpl andb.
  set (g1 := set_df g (setitem (g_df g) n (Float64S (map parsed_cell vals)))).
  destruct (IH g1) as (IHiff & IHcols & IHother & IHm & IHc).
  assert (∀ name, name ≠ n → getitem (g_df g1) name = getitem (g_df g) name) as Hg1
    by (intros; by apply getitem_setitem_ne).
  assert (forallb (λ name, column_ok (getitem (g_df g1) name)) ns
          = forallb (λ name, column_ok (getitem (g_df g) name)) ns) as Hsame.
  { clear -Hn Hg1. induction ns as [|m ns IHns]; simpl; [done|].
    rewrite Hg1 by (intros ->; apply Hn; by left).
    f_equal. apply IHns. intros Hin. apply Hn. by right. }
  split; [by rewrite IHiff, Hsame|]. split; [|split; [|split]].
  - intros Hnone name [->|Hin]%elem_of_cons.
    + exists vals. split; [done|].
      rewrite IHother by done. apply getitem_setitem_eq.
    + destruct (IHcols Hnone name Hin) as (vs & Hv & Hv').
      exists vs. split; [|done]. rewrite <- Hg1; [done|].
      intros ->. done.
  - intros name Hname. rewrite IHother, Hg1; [done| |].
    + intros ->. apply Hname. by left.
    + intros Hin. apply Hname. by right.
  - by rewrite IHm.
  - intros Hnone. rewrite (IHc Hnone). by apply (columns_setitem _ _ (ObjectS vals)).
Qed.

Lemma possession_columns_NoDup : NoDup possession_columns.
Proof.
  unfold possession_columns.
  repeat (constructor; [rewrite ?elem_of_cons, elem_of_nil; intuition discriminate|]).
  constructor.
Qed.

(** C10 (as amended): lines 31-33 complete exactly when each of the three
    possession columns is a text column whose every value is either
    missing or a string that parses as a float once its trailing percent
    signs are stripped, and raise otherwise.  On completion each of the
    three columns holds the parsed numbers (NaN for a missing value), so
    that '42%' becomes 42.0.  No other column is modified, whether the
    step completes or not. *)
Theorem possession_preprocessing `{Parsers} (g : globals) :
  let out := exec transform_stage g in
  (out.2 = None ↔ columns_ok (g_df g) = true)
  ∧ (out.2 = None →
     ∀ name, name ∈ possession_columns →
       ∃ vals, getitem (g_df g) name = Ok (ObjectS vals)
               ∧ getitem (g_df out.1) name = Ok (Float64S (map parsed_cell vals)))
  ∧ (∀ name, name ∉ possession_columns →
       getitem (g_df out.1) name = getitem (g_df g) name)
  ∧ (out.2 = None → columns (g_df out.1) = columns (g_df g))
  ∧ g_metrics out.1 = g_metrics g
  ∧ rstrip "%" "42%" = "42"%string
  ∧ @parsed_cell sample_parsers (Some "42%"%string) = Finite (inject_Z 42).
Proof.
  destruct (transform_names possession_columns g possession_columns_NoDup)
    as (Hiff & Hcols & Hother & Hm & Hc).
  repeat split; try done; apply Hiff.
Qed.

(** C10, counterexample: with one possession field left empty the three
    statements complete, although that value is not a string. *)
Lemma succeeds_only_on_strings_fails :
  ¬ @succeeds_only_on_strings sample_parsers (rename_columns csv_with_gap).
Proof.
  intros Hclaim.
  destruct (Hclaim eq_refl "possession_team1"%string) as (vals & Hget & Hvals).
  { by left. }
  vm_compute in Hget. injection Hget as <-.
  destruct (Hvals None) as (str & Hstr & _); [right; left | discriminate].
Qed.

Example run_sample_with_gap :
  (@run sample_parsers csv_with_gap).2 = None
  ∧ getitem (g_df (@run sample_parsers csv_with_gap).1) "possession_team1"
    = Ok (Float64S [NaN; Finite (inject_Z 72); Finite (inject_Z 42)]).
Proof. by vm_compute. Qed.

(** ** A completed run *)


Example run_sample :
  (@run sample_parsers sample_csv).2 = None
  ∧ (g_metrics (@run sample_parsers sample_csv).1
       ≫= λ m, lookup_record m (Some "Group A"%string) (Some "QATAR"%string))
    = Some {| Team := Some "QATAR"%string; Total_Attempts := 27;
              On_Target_pct := Finite (3333 # 100); Goals := 6; Assists := 4 |}.
Proof. by vm_compute. Qed.

(** * Further properties of the script *)

(** ** Teams, categories and the shape of the result *)

Lemma NoDup_subset_length {A} (l k : list A) :
  NoDup l → (∀ x, x ∈ l → x ∈ k) → (length l ≤ length k)%nat.
Proof. intros Hnd Hsub. apply submseteq_length. by apply NoDup_submseteq. Qed.

(** X1: the team list of line 36 holds every value of the team1 and
    team2 columns exactly once, starting with team1 of the first row, and
    the category list of line 37 holds every value of the category column
    exactly once, starting with the category of the first row; there are
    at most two teams and one category per row. *)
Theorem teams_and_categories_distinct (df : table) :
  NoDup (teams df)
  ∧ (∀ t, t ∈ teams df ↔ ∃ r, r ∈ df ∧ (team1 r = t ∨ team2 r = t))
  ∧ head (teams df) = team1 <$> head df
  ∧ (length (teams df) ≤ 2 * length df)%nat
  ∧ NoDup (categories df)
  ∧ (∀ c, c ∈ categories df ↔ ∃ r, r ∈ df ∧ category r = c)
  ∧ head (categories df) = category <$> head df
  ∧ (length (categories df) ≤ length df)%nat.
Proof.
  assert (∀ (f : match_row → label) x, x ∈ map f df ↔ ∃ r, r ∈ df ∧ f r = x) as Hmap.
  { intros f x. rewrite list_elem_of_In, in_map_iff. split.
    - intros (r & <- & Hr). exists r. by rewrite list_elem_of_In.
    - intros (r & Hr & <-). exists r. by rewrite <- list_elem_of_In. }
  repeat split.
  - apply unique_NoDup.
  - rewrite teams_elem, elem_of_app, !Hmap. naive_solver.
  - rewrite teams_elem, elem_of_app, !Hmap. naive_solver.
  - unfold teams, unique. by destruct df as [|r df].
  - etransitivity.
    + apply (NoDup_subset_length _ (map team1 df ++ map team2 df));
        [apply unique_NoDup | by intros x ?%teams_elem].
    + rewrite length_app, !length_map. lia.
  - apply unique_NoDup.
  - by rewrite categories_elem, Hmap.
  - by rewrite categories_elem, Hmap.
  - unfold categories, unique. by destruct df as [|r df].
  - etransitivity.
    + apply (NoDup_subset_length _ (map category df));
        [apply unique_NoDup | by intros x ?%categories_elem].
    + by rewrite length_map.
Qed.

(** X2: the keys of the [metrics] dictionary are exactly the categories
    of the table, one entry per category, and the entry of a category is
    the frame the inner loop built for it. *)
Theorem metrics_keys_are_categories (df : table) :
  dom (metrics df) = list_to_set (categories df)
  ∧ size (metrics df) = length (categories df)
  ∧ ∀ cat, cat ∈ categories df →
      metrics df !! cat = Some (category_metrics df cat).
Proof.
  assert (dom (metrics df) = list_to_set (categories df)) as Hdom.
  { apply set_eq. intros cat.
    rewrite elem_of_dom, elem_of_list_to_set, metrics_lookup.
    destruct (decide (cat ∈ categories df)) as [Hin|Hnin].
    - split; [done | by eexists].
    - split; [by intros [? ?] | done]. }
  split; [done|]. split.
  - rewrite <- size_dom, Hdom. apply size_list_to_set, unique_NoDup.
  - intros cat Hcat. rewrite metrics_lookup. by destruct (decide _).
Qed.

(** X3: every frame of the result lists every team exactly once, in the
    order of the team list, whatever the category. *)
Theorem frames_list_every_team (df : table) (cat : label) (frame : list metric_row) :
  metrics df !! cat = Some frame →
  map Team frame = teams df
  ∧ length frame = length (teams df)
  ∧ NoDup (map Team frame).
Proof.
  rewrite metrics_lookup. destruct (decide _); [|done]. intros [= <-].
  assert (map Team (category_metrics df cat) = teams df) as Hx.
  { unfold category_metrics. rewrite map_map.
    rewrite <- (map_id (teams df)) at 2. apply map_ext.
    intros t. by destruct (team_metrics_counts df cat t) as [-> _]. }
  split; [done|]. split.
  - unfold category_metrics. by rewrite length_map.
  - rewrite Hx. apply unique_NoDup.
Qed.

Lemma frames_list_every_team_witness :
  metrics sample !! Some "Group B"%string
  = Some (category_metrics sample (Some "Group B"%string))
  ∧ map Team (category_metrics sample (Some "Group B"%string)) = teams sample
  ∧ length (category_metrics sample (Some "Group B"%string)) = length (teams sample)
  ∧ NoDup (map Team (category_metrics sample (Some "Group B"%string))).
Proof.
  assert (metrics sample !! Some "Group B"%string
          = Some (category_metrics sample (Some "Group B"%string))) as Hm
    by (by vm_compute).
  split; [exact Hm|].
  exact (frames_list_every_team sample _ _ Hm).
Defined.

(** X4: an empty field matches nothing.  The record of a missing team or
    a missing category is all-zero, and every row counted for a pair has
    that very category and names that very team: a row without a category
    is counted nowhere. *)
Theorem missing_labels_match_no_row (df : table) (cat team : label) :
  cat ∈ categories df → team ∈ teams df →
  cat = None ∨ team = None →
  lookup_record (metrics df) cat team
  = Some {| Team := team; Total_Attempts := 0; On_Target_pct := Finite 0;
            Goals := 0; Assists := 0 |}
  ∧ ∀ cat' team' r,
      r ∈ category_data df cat' team' →
      is_Some cat' ∧ is_Some team' ∧ category r = cat'
      ∧ (team1 r = team' ∨ team2 r = team').
Proof.
  intros Hc Ht Hmissing. split.
  - rewrite lookup_record_metrics.
    destruct (decide (cat ∈ categories df ∧ team ∈ teams df)) as [_|Hn]; [|tauto].
    f_equal. unfold team_metrics. rewrite category_data_spec_rows.
    rewrite (spec_rows_nil df cat team); [done|].
    intros r _ [Hcat Hteam]. destruct Hmissing as [-> | ->].
    + apply elem_eq_true in Hcat as (s & _ & Hs). discriminate Hs.
    + destruct Hteam as [Ht'|Ht'];
        apply elem_eq_true in Ht' as (s & _ & Hs); discriminate Hs.
  - intros cat' team' r. rewrite category_data_spec_rows. unfold spec_rows.
    rewrite list_elem_of_In, filter_In, andb_true_iff, orb_true_iff.
    intros (_ & (c & Hcr & ->)%elem_eq_true & [Ht'|Ht']);
      apply elem_eq_true in Ht' as (t & Ht' & ->);
      repeat split; try done; try by eexists.
    + by left.
    + by right.
Qed.

Lemma missing_labels_match_no_row_witness :
  lookup_record (metrics sample_with_gaps) (Some "Group A"%string) None
  = Some {| Team := None; Total_Attempts := 0; On_Target_pct := Finite 0;
            Goals := 0; Assists := 0 |}
  ∧ ∀ cat' team' r,
      r ∈ category_data sample_with_gaps cat' team' →
      is_Some cat' ∧ is_Some team' ∧ category r = cat'
      ∧ (team1 r = team' ∨ team2 r = team').
Proof.
  apply (missing_labels_match_no_row sample_with_gaps (Some "Group A"%string) None).
  - apply categories_elem. simpl. left.
  - apply teams_elem. simpl. right. left.
  - by right.
Defined.

(** ** Each match counts for both of its teams *)

Lemma sum_over_two_indicators (ts : list label) (a b : string) (v : Z) :
  NoDup ts → Some a ∈ ts → Some b ∈ ts → a ≠ b →
  sum_over (λ t, if elem_eq (Some a) t || elem_eq (Some b) t then v else 0) ts
  = 2 * v.
Proof.
  intros Hnd Ha Hb Hab.
  rewrite (sum_over_ext _
    (λ t, (if elem_eq (Some a) t then v else 0)
          + (if elem_eq (Some b) t then v else 0))).
  - rewrite sum_over_add, !sum_over_indicator by done.
    destruct (decide (is_Some (Some a) ∧ Some a ∈ ts)) as [|Hn];
      [|exfalso; apply Hn; split; [by eexists | done]].
    destruct (decide (is_Some (Some b) ∧ Some b ∈ ts)) as [|Hn];
      [|exfalso; apply Hn; split; [by eexists | done]].
    lia.
  - intros t _. destruct (elem_eq (Some a) t) eqn:Ea, (elem_eq (Some b) t) eqn:Eb;
      simpl; try lia.
    apply elem_eq_true in Ea as (s & [= ->] & ->).
    apply elem_eq_true in Eb as (s' & [= ->] & [= ->]). done.
Qed.

Lemma sum_over_team_selections (col : match_row → Z) (ts : list label) (rows : table) :
  NoDup ts →
  (∀ r, r ∈ rows →
        ∃ a b, team1 r = Some a ∧ team2 r = Some b ∧ a ≠ b
               ∧ Some a ∈ ts ∧ Some b ∈ ts) →
  sum_over
    (λ t, col_sum col
            (List.filter (λ r, elem_eq (team1 r) t || elem_eq (team2 r) t) rows)) ts
  = 2 * col_sum col rows.
Proof.
  intros Hnd. induction rows as [|r rows IH]; intros Hrows.
  - clear. unfold sum_over. induction ts as [|t ts IHts]; simpl in *; [done|].
    by rewrite IHts.
  - rewrite (sum_over_ext _
      (λ t, (if elem_eq (team1 r) t || elem_eq (team2 r) t then col r else 0)
            + col_sum col
                (List.filter (λ r, elem_eq (team1 r) t || elem_eq (team2 r) t) rows))).
    2:{ intros t _. simpl.
        by destruct (elem_eq (team1 r) t || elem_eq (team2 r) t). }
    rewrite sum_over_add, IH by (intros; apply Hrows; by right).
    destruct (Hrows r) as (a & b & -> & -> & Hab & Ha & Hb); [by left|].
    rewrite sum_over_two_indicators by done. simpl. lia.
Qed.

Lemma category_data_filter_swap (df : table) (cat team : label) :
  category_data df cat team
  = List.filter (λ r, elem_eq (team1 r) team || elem_eq (team2 r) team)
      (List.filter (λ r, elem_eq (category r) cat) df).
Proof.
  unfold category_data, team_data. induction df as [|r df IH]; simpl; [done|].
  destruct (elem_eq (team1 r) team || elem_eq (team2 r) team) eqn:Et,
           (elem_eq (category r) cat) eqn:Ec; simpl;
    rewrite ?Et, ?Ec, ?IH; done.
Qed.




(** ** Rounding to two decimals *)

Lemma rint_comp (q q' : Q) : (q == q')%Q → rint q = rint q'.
Proof.
  intros Heq. unfold rint.
  assert (Qfloor q = Qfloor q') as <- by (by apply Qfloor_comp).
  assert ((q - inject_Z (Qfloor q) ?= 1 # 2) = (q' - inject_Z (Qfloor q) ?= 1 # 2))%Q
    as -> by (apply Qcompare_comp; [lra | done]).
  done.
Qed.

Lemma rint_inject_Z (n : Z) : rint (inject_Z n) = n.
Proof.
  unfold rint. rewrite Qfloor_Z.
  assert ((inject_Z n - inject_Z n ?= 1 # 2)%Q = Lt) as ->; [|done].
  apply (proj1 (Qlt_alt _ _)). lra.
Qed.


(** ** The stacked bar chart *)

Lemma map_Team_category_metrics (df : table) (cat : label) :
  map Team (category_metrics df cat) = teams df.
Proof.
  unfold category_metrics. rewrite map_map.
  rewrite <- (map_id (teams df)) at 2. apply map_ext.
  intros t. by destruct (team_metrics_counts df cat t) as [-> _].
Qed.

Lemma metrics_getitem_category (df : table) (cat : label) :
  cat ∈ categories df →
  metrics_getitem (metrics df) cat = Built (category_metrics df cat).
Proof.
  intros Hc. unfold metrics_getitem. rewrite metrics_lookup.
  by destruct (decide (cat ∈ categories df)).
Qed.

Lemma category_button_category (df : table) (cat : label) :
  cat ∈ categories df →
  category_button (metrics df) cat
  = Built {| button_label := cat;
             args_x := replicate 4 (teams df);
             args_y := metric_columns (category_metrics df cat);
             args_text := metric_columns (category_metrics df cat) |}.
Proof.
  intros Hc. unfold category_button. rewrite metrics_getitem_category by done.
  cbn [mbind built_bind mret built_ret]. by rewrite map_Team_category_metrics.
Qed.

Lemma build_all_buttons (df : table) (cats : list label) :
  (∀ c, c ∈ cats → c ∈ categories df) →
  build_all (category_button (metrics df)) cats
  = Built (map (λ cat, {| button_label := cat;
                          args_x := replicate 4 (teams df);
                          args_y := metric_columns (category_metrics df cat);
                          args_text := metric_columns (category_metrics df cat) |})
               cats).
Proof.
  induction cats as [|c cats IH]; intros Hcats; [done|].
  cbn [build_all map]. rewrite category_button_category by (apply Hcats; by left).
  rewrite IH by (intros; apply Hcats; by right). done.
Qed.

Lemma build_fig4_cons `{Formats} (df : table) (r : match_row) (rows : table) :
  df = r :: rows →
  build_fig4 (categories df) (metrics df)
  = Built {| fig4_data := fig4_traces (category_metrics df (category r));
             fig4_buttons :=
               map (λ cat, {| button_label := cat;
                              args_x := replicate 4 (teams df);
                              args_y := metric_columns (category_metrics df cat);
                              args_text := metric_columns (category_metrics df cat) |})
                   (categories df) |}.
Proof.
  intros Hdf. pose proof (build_all_buttons df (categories df) (λ c Hc, Hc)) as Hb.
  assert (∃ cs, categories df = category r :: cs) as [cs Hcs].
  { subst df. unfold categories, unique. simpl. by eexists. }
  unfold build_fig4. rewrite Hcs at 1.
  rewrite metrics_getitem_category by (rewrite Hcs; by left).
  cbn [mbind built_bind]. rewrite Hb. done.
Qed.

(** X8: building the bar chart fails with an IndexError at line 58 on a
    table without rows.  On any other table it succeeds: the default
    category is the category of the first row, the look-ups of lines 59
    and 122-124 never raise a KeyError, and the chart starts with the
    frame of the default category. *)
Theorem default_category_outcome `{Formats} (df : table) :
  match df with
  | [] => build_fig4 (categories df) (metrics df) = Failed IndexError
  | r :: _ =>
      ∃ fig, build_fig4 (categories df) (metrics df) = Built fig
             ∧ metrics df !! category r = Some (category_metrics df (category r))
             ∧ fig4_data fig = fig4_traces (category_metrics df (category r))
  end.
Proof.
  destruct df as [|r rows]; [done|].
  eexists. split; [by apply (build_fig4_cons _ r rows)|]. split; [|done].
  rewrite metrics_lookup. destruct (decide _) as [|Hn]; [done|].
  exfalso. apply Hn, categories_elem. simpl. left.
Qed.

(** X9: the chart has four traces, named after the four metrics in the
    order of [metric_names]; all four have the team list as their x axis
    and carry one value and one text label per team. *)
Theorem bar_traces_aligned `{Formats} (df : table) (fig : figure4) :
  build_fig4 (categories df) (metrics df) = Built fig →
  map bar_name (fig4_data fig) = metric_names
  ∧ ∀ b, b ∈ fig4_data fig →
      bar_x b = teams df
      ∧ column_length (bar_y b) = length (teams df)
      ∧ length (bar_text b) = length (teams df).
Proof.
  destruct df as [|r rows] eqn:Hdf; [done|]. rewrite <- Hdf.
  rewrite (build_fig4_cons df r rows Hdf). intros [= <-]. cbn [fig4_data].
  set (frame := category_metrics df (category r)).
  assert (length frame = length (teams df)) as Hlen
    by (unfold frame, category_metrics; by rewrite length_map).
  split; [done|]. intros b Hb.
  unfold fig4_traces, metric_columns, metric_names, colors, zip in Hb.
  cbn [zip_with] in Hb.
  repeat (apply elem_of_cons in Hb as [->|Hb]); [| | | | by apply elem_of_nil in Hb];
    cbn [bar_x bar_y bar_text column_length column_text];
    rewrite ?length_map, ?Hlen; (split; [apply map_Team_category_metrics | done]).
Qed.

Lemma bar_traces_aligned_witness :
  ∃ fig,
    @build_fig4 sample_formats (categories sample) (metrics sample) = Built fig
    ∧ map bar_name (fig4_data fig) = metric_names
    ∧ ∀ b, b ∈ fig4_data fig →
        bar_x b = teams sample
        ∧ column_length (bar_y b) = length (teams sample)
        ∧ length (bar_text b) = length (teams sample).
Proof.
  eexists. split; [by vm_compute|].
  apply (@bar_traces_aligned sample_formats sample). by vm_compute.
Defined.

(** X10: the category menu has one button per category, in the order of
    the category list and labelled with it.  Every button sets the team
    list as x axis of all four traces and four columns of one value per
    team; the first button sets the x and y values the chart starts with. *)
Theorem category_menu `{Formats} (df : table) (fig : figure4) :
  build_fig4 (categories df) (metrics df) = Built fig →
  map button_label (fig4_buttons fig) = categories df
  ∧ (∀ b, b ∈ fig4_buttons fig →
       args_x b = replicate 4 (teams df)
       ∧ length (args_y b) = 4%nat
       ∧ Forall (λ c, column_length c = length (teams df)) (args_y b)
       ∧ args_text b = args_y b)
  ∧ ∃ first, head (fig4_buttons fig) = Some first
             ∧ map bar_x (fig4_data fig) = args_x first
             ∧ map bar_y (fig4_data fig) = args_y first.
Proof.
  destruct df as [|r rows] eqn:Hdf; [done|]. rewrite <- Hdf.
  rewrite (build_fig4_cons df r rows Hdf). intros [= <-].
  cbn [fig4_data fig4_buttons]. split; [|split].
  - rewrite List.map_map. cbn [button_label]. apply List.map_id.
  - intros b Hb. apply list_elem_of_In, in_map_iff in Hb as (cat & <- & _).
    cbn [args_x args_y args_text]. repeat split.
    unfold metric_columns. repeat constructor;
      cbn [column_length]; unfold category_metrics; by rewrite !length_map.
  - assert (∃ cs, categories df = category r :: cs) as [cs Hcs]
      by (rewrite Hdf; unfold categories, unique; simpl; by eexists).
    rewrite Hcs. cbn [map head]. eexists. split; [done|].
    cbn [args_x args_y].
    unfold fig4_traces, metric_columns, metric_names, colors, zip.
    cbn [zip_with map bar_x bar_y replicate].
    by rewrite map_Team_category_metrics.
Qed.

Lemma category_menu_witness :
  ∃ fig,
    @build_fig4 sample_formats (categories sample) (metrics sample) = Built fig
    ∧ map button_label (fig4_buttons fig) = categories sample
    ∧ (∀ b, b ∈ fig4_buttons fig →
         args_x b = replicate 4 (teams sample)
         ∧ length (args_y b) = 4%nat
         ∧ Forall (λ c, column_length c = length (teams sample)) (args_y b)
         ∧ args_text b = args_y b)
    ∧ ∃ first, head (fig4_buttons fig) = Some first
               ∧ map bar_x (fig4_data fig) = args_x first
               ∧ map bar_y (fig4_data fig) = args_y first.
Proof.
  eexists. split; [by vm_compute|].
  apply (@category_menu sample_formats sample). by vm_compute.
Defined.

(** ** The 3D scatter and its two buttons *)

Lemma mask_below (n a k : nat) :
  (a + k ≤ n)%nat →
  map (λ i, bool_decide (i < n)%nat) (seq a k) = replicate k true
  ∧ map (λ i, bool_decide (n ≤ i)%nat) (seq a k) = replicate k false.
Proof.
  revert a. induction k as [|k IH]; intros a Hle; [done|].
  cbn [seq map replicate]. destruct (IH (S a)) as [-> ->]; [lia|].
  rewrite bool_decide_eq_true_2 by lia. by rewrite bool_decide_eq_false_2 by lia.
Qed.

Lemma mask_above (n a k : nat) :
  (n ≤ a)%nat →
  map (λ i, bool_decide (i < n)%nat) (seq a k) = replicate k false
  ∧ map (λ i, bool_decide (n ≤ i)%nat) (seq a k) = replicate k true.
Proof.
  revert a. induction k as [|k IH]; intros a Hle; [done|].
  cbn [seq map replicate]. destruct (IH (S a)) as [-> ->]; [lia|].
  rewrite bool_decide_eq_false_2 by lia. by rewrite bool_decide_eq_true_2 by lia.
Qed.

Lemma fig2_buttons_masks (df : list chart_row) :
  fig2_buttons df
  = [ ("Team 1"%string, replicate (length df) true ++ replicate (length df) false);
      ("Team 2"%string, replicate (length df) false ++ replicate (length df) true) ].
Proof.
  unfold fig2_buttons.
  replace (length df * 2)%nat with (length df + length df)%nat by lia.
  rewrite seq_app, !map_app. simpl.
  destruct (mask_below (length df) 0 (length df)) as [-> ->]; [lia|].
  destruct (mask_above (length df) (length df) (length df)) as [-> ->]; [lia|].
  done.
Qed.

Lemma map_const_replicate {A B} (f : A → B) (b : B) (l : list A) :
  (∀ x, f x = b) → map f l = replicate (length l) b.
Proof. intros Hf. induction l as [|x l IH]; simpl; [done|]. by rewrite Hf, IH. Qed.


Lemma shown_replicate {A} (b : bool) (l : list A) :
  shown (replicate (length l) b) l = if b then l else [].
Proof.
  unfold shown. induction l as [|x l IH]; [by destruct b|].
  cbn [length replicate zip zip_with]. rewrite bind_cons, IH. by destruct b.
Qed.

Lemma shown_app {A} (v1 v2 : list bool) (l1 l2 : list A) :
  length v1 = length l1 →
  shown (v1 ++ v2) (l1 ++ l2) = shown v1 l1 ++ shown v2 l2.
Proof.
  intros Hlen. unfold shown. rewrite zip_with_app by done. apply bind_app.
Qed.


(** ** The frames of the animation *)

Lemma unique_ts_from_elem (seen l : list (option Z)) (x : option Z) :
  x ∈ unique_ts_from seen l ↔ x ∈ l ∧ x ∉ seen.
Proof.
  revert seen. induction l as [|y l IH]; intros seen; simpl.
  - rewrite elem_of_nil. tauto.
  - case_bool_decide as Hy.
    + rewrite IH, elem_of_cons. split; [tauto|].
      intros [[->|Hx] Hs]; [done | tauto].
    + rewrite !elem_of_cons, IH, elem_of_cons. split.
      * intros [->|[Hx Hs]]; tauto.
      * destruct (decide (x = y)); tauto.
Qed.

Lemma unique_ts_from_NoDup (seen l : list (option Z)) : NoDup (unique_ts_from seen l).
Proof.
  revert seen. induction l as [|y l IH]; intros seen; simpl.
  - constructor.
  - case_bool_decide as Hy; [apply IH|].
    constructor; [|apply IH].
    rewrite unique_ts_from_elem, elem_of_cons. tauto.
Qed.

Lemma unique_ts_elem (l : list (option Z)) (x : option Z) : x ∈ unique_ts l ↔ x ∈ l.
Proof.
  unfold unique_ts. rewrite unique_ts_from_elem. split; [tauto|].
  intros Hx. split; [done | apply not_elem_of_nil].
Qed.

Lemma ts_eq_true (x y : option Z) : ts_eq x y = true ↔ ∃ t, x = Some t ∧ y = Some t.
Proof.
  destruct x as [a|], y as [b|]; simpl;
    try (split; [discriminate | intros (t & ? & ?); discriminate]).
  rewrite Z.eqb_eq. split.
  - intros ->. eauto.
  - intros (t & ? & ?). congruence.
Qed.

Lemma filter_disjoint_Permutation {A} (p q pq : A → bool) (l : list A) :
  (∀ x, x ∈ l → pq x = p x || q x) →
  (∀ x, x ∈ l → p x = true → q x = false) →
  Permutation (List.filter p l ++ List.filter q l) (List.filter pq l).
Proof.
  induction l as [|x l IH]; intros Hpq Hdisj; [done|]. simpl.
  rewrite (Hpq x) by (by left).
  assert (Permutation (List.filter p l ++ List.filter q l) (List.filter pq l)) as IH'
    by (apply IH; intros; [apply Hpq | apply Hdisj]; by try right).
  destruct (p x) eqn:Hp; simpl.
  - rewrite (Hdisj x) by (by try left). by constructor.
  - destruct (q x); simpl; [|done].
    rewrite <- IH'. symmetry. apply Permutation_middle.
Qed.

(** The rows whose timestamp is one of [ds]. *)
Lemma frames_cover (ds : list (option Z)) (rows : list chart_row) :
  NoDup ds →
  Permutation
    (concat (map (frame_rows rows) ds))
    (List.filter (λ r, bool_decide (is_Some (ts r) ∧ ts r ∈ ds)) rows).
Proof.
  induction 1 as [|d ds Hd Hnd IH]; simpl.
  - induction rows as [|r rows IHr]; simpl; [done|].
    rewrite bool_decide_eq_false_2; [done|]. by intros [_ ?%elem_of_nil].
  - rewrite IH. unfold frame_rows. apply filter_disjoint_Permutation.
    + intros r _. apply eq_true_iff_eq.
      rewrite orb_true_iff, !bool_decide_eq_true, ts_eq_true, elem_of_cons.
      split.
      * intros [[t Ht] [Hin|Hin]]; [left; exists t; split; congruence | by right].
      * intros [(t & Ht & ->)|[Hs Hin]].
        -- split; [by eexists | by left].
        -- split; [done | by right].
    + intros r _ (t & Ht & ->)%ts_eq_true. apply bool_decide_eq_false_2.
      rewrite Ht. tauto.
Qed.

Lemma frame_rows_NaT (rows : list chart_row) : frame_rows rows None = [].
Proof.
  unfold frame_rows. induction rows as [|r rows IH]; simpl; [done|].
  by destruct (ts r).
Qed.

Lemma df_sorted_Permutation (df : list chart_row) : Permutation (df_sorted df) df.
Proof.
  unfold df_sorted. apply take_Permutation.
  rewrite <- (length_map ts df). apply argsort_Permutation.
Qed.

(** X13: the animation has one frame per distinct timestamp, named like
    the slider step at the same position.  The frames split the dated
    matches among themselves: every match with a timestamp is in exactly
    one frame, a match without one (NaT) is in none, and the only frame
    that can be empty is the one of NaT. *)
Theorem frames_partition_matches `{Formats} (df : list chart_row) :
  let dates := unique_ts (map ts (df_sorted df)) in
  fig3_frames df = map (date_frame (df_sorted df)) dates
  ∧ map frame_name (fig3_frames df) = map step_frame (slider_steps df)
  ∧ NoDup dates
  ∧ (∀ d, d ∈ dates ↔ ∃ r, r ∈ df ∧ ts r = d)
  ∧ Permutation
      (concat (map (frame_rows (df_sorted df)) dates))
      (List.filter (λ r, bool_decide (is_Some (ts r))) df)
  ∧ (∀ d, d ∈ dates → frame_rows (df_sorted df) d = [] ↔ d = None).
Proof.
  intros dates.
  assert (∀ d, d ∈ dates ↔ ∃ r, r ∈ df ∧ ts r = d) as Hdates.
  { intros d. unfold dates. rewrite unique_ts_elem, list_elem_of_In, in_map_iff.
    split.
    - intros (r & <- & Hr). exists r. split; [|done].
      apply (elem_of_Permutation_list _ _ _ (df_sorted_Permutation df)).
      by apply list_elem_of_In.
    - intros (r & Hr & <-). exists r. split; [done|].
      apply list_elem_of_In.
      by apply (elem_of_Permutation_list _ _ _ (df_sorted_Permutation df)). }
  split; [done|]. split; [|split; [|split; [done|split]]].
  - unfold fig3_frames, slider_steps. by rewrite !List.map_map.
  - apply unique_ts_from_NoDup.
  - rewrite frames_cover by apply unique_ts_from_NoDup.
    rewrite <- (filter_Permutation_bool _ _ _ (df_sorted_Permutation df)).
    erewrite List.filter_ext_in; [done|].
    intros r Hr. apply bool_decide_ext. split; [tauto|]. intros Hs. split; [done|].
    apply Hdates. exists r. split; [|done].
    apply (elem_of_Permutation_list _ _ _ (df_sorted_Permutation df)).
    by apply list_elem_of_In.
  - intros d Hd. split.
    + intros Hnil. destruct d as [t|]; [|done]. exfalso.
      apply Hdates in Hd as (r & Hr & Hts).
      assert (r ∈ frame_rows (df_sorted df) (Some t)) as Hin.
      { unfold frame_rows. apply list_elem_of_In, filter_In. split.
        - apply list_elem_of_In.
          by apply (elem_of_Permutation_list _ _ _ (df_sorted_Permutation df)).
        - rewrite Hts. simpl. apply Z.eqb_refl. }
      rewrite Hnil in Hin. by apply elem_of_nil in Hin.
    + intros ->. apply frame_rows_NaT.
Qed.

Lemma foldr_max_spec (x : Z) (l : list Z) :
  (∀ y, y ∈ x :: l → y <= foldr Z.max x l) ∧ foldr Z.max x l ∈ x :: l.
Proof.
  induction l as [|z l [IHle IHin]]; cbn [foldr].
  - split; [by intros y ->%list_elem_of_singleton | by left].
  - split.
    + intros y Hy. apply elem_of_cons in Hy as [->|Hy].
      * specialize (IHle x ltac:(by left)). lia.
      * apply elem_of_cons in Hy as [->|Hy]; [lia|].
        specialize (IHle y ltac:(by right)). lia.
    + destruct (Z.max_spec z (foldr Z.max x l)) as [[_ ->]|[_ ->]].
      * apply elem_of_cons in IHin as [->|IHin]; [by left | by do 2 right].
      * right. by left.
Qed.


(** ** The load stage *)

Lemma replace_char_absent (old new : ascii) (s : string) :
  old ≠ new → old ∉ list_ascii_of_string (replace_char old new s).
Proof.
  intros Hne. induction s as [|a s IH]; simpl; [apply not_elem_of_nil|].
  rewrite not_elem_of_cons. split; [|done].
  case_bool_decide; congruence.
Qed.

Lemma replace_char_id (old new : ascii) (s : string) :
  old ∉ list_ascii_of_string s → replace_char old new s = s.
Proof.
  induction s as [|a s IH]; simpl; [done|].
  rewrite not_elem_of_cons. intros [Ha Hs].
  rewrite bool_decide_eq_false_2 by congruence. by rewrite IH.
Qed.

Lemma replace_char_inv (old new : ascii) (s name : string) :
  new ∉ list_ascii_of_string name → replace_char old new s = name → s = name.
Proof.
  revert name. induction s as [|a s IH]; intros [|b name]; simpl; try done.
  rewrite not_elem_of_cons. intros [Hb Hname] [= Hab Hs].
  case_bool_decide; [congruence|]. subst b. f_equal. by apply IH.
Qed.

(** X15: after line 17 no column name contains a space, a name that had
    none is unchanged, and the columns keep their order and contents;
    renaming twice changes nothing more.  A column whose name has neither
    a space nor an underscore, such as [date] and [ts], is found under
    that name exactly as before. *)
Theorem rename_columns_spec (df : DataFrame) :
  columns (rename_columns df) = map (replace_char " " "_") (columns df)
  ∧ map snd (rename_columns df) = map snd df
  ∧ (∀ c, c ∈ columns (rename_columns df) → " "%char ∉ list_ascii_of_string c)
  ∧ (∀ c, " "%char ∉ list_ascii_of_string c → replace_char " " "_" c = c)
  ∧ rename_columns (rename_columns df) = rename_columns df
  ∧ ∀ name,
      " "%char ∉ list_ascii_of_string name →
      "_"%char ∉ list_ascii_of_string name →
      getitem (rename_columns df) name = getitem df name.
Proof.
  unfold rename_columns, columns. repeat split.
  - by rewrite !List.map_map.
  - by rewrite List.map_map.
  - intros c. rewrite List.map_map, list_elem_of_In, in_map_iff.
    intros (cs & <- & _). by apply replace_char_absent.
  - intros c. apply replace_char_id.
  - rewrite List.map_map. apply map_ext. intros [c s]. simpl.
    by rewrite (replace_char_id _ _ (replace_char " " "_" c))
      by (by apply replace_char_absent).
  - intros name Hsp Hus. induction df as [|[c s] df IH]; simpl; [done|].
    rewrite IH. do 2 case_bool_decide; try done.
    + exfalso. by apply (replace_char_inv " " "_" c name) in Hus.
    + exfalso. subst c. by rewrite replace_char_id in *.
Qed.

Lemma getitem_Raise (df : DataFrame) (name : string) (e : exn) :
  getitem df name = Raise e → e = KeyError name ∧ name ∉ columns df.
Proof.
  induction df as [|[c s] df IH]; simpl.
  - intros [= <-]. split; [done | apply not_elem_of_nil].
  - case_bool_decide as Hc; [done|]. intros [-> Hn]%IH.
    split; [done|]. rewrite not_elem_of_cons. split; [congruence | done].
Qed.

(** The bad value the date parser stops at. *)
Lemma traverse_dates `{Parsers} (vals : list label) :
  let rejected := λ v : label,
    match v with Some str => bool_decide (strptime str = None) | None => false end in
  traverse (λ v, match v with
                 | None => Ok None
                 | Some str =>
                     match strptime str with
                     | Some t => Ok (Some t)
                     | None => Raise (TimeDataError str)
                     end
                 end) vals
  = match List.find rejected vals with
    | Some v => Raise (TimeDataError (str_label v))
    | None => Ok (map (λ v, mbind strptime v) vals)
    end.
Proof.
  intros rejected. induction vals as [|v vals IH]; [done|].
  cbn [traverse List.find map]. destruct v as [str|]; cbn [rejected].
  - destruct (strptime str) as [t|] eqn:Ht; simpl.
    + rewrite IH. rewrite Ht. by destruct (List.find rejected vals).
    + done.
  - simpl. rewrite IH. by destruct (List.find rejected vals).
Qed.


(** ** The sort by date *)

Lemma key_le_total (a b : option Z) : key_le a b = false → key_le b a = true.
Proof. destruct a, b; simpl; try done. rewrite Z.leb_gt, Z.leb_le. lia. Qed.

Lemma key_le_trans (a b c : option Z) :
  key_le a b = true → key_le b c = true → key_le a c = true.
Proof. destruct a, b, c; simpl; try done. rewrite !Z.leb_le. lia. Qed.

Lemma insert_by_HdRel (a x : option Z * nat) (l : list (option Z * nat)) :
  key_le a.1 x.1 = true →
  HdRel (λ p q, key_le p.1 q.1 = true) a l →
  HdRel (λ p q, key_le p.1 q.1 = true) a (insert_by x l).
Proof.
  intros Hax Hal. destruct l as [|y l]; simpl; [by constructor|].
  destruct (key_le x.1 y.1); constructor; [done|]. by inversion Hal.
Qed.

Lemma insert_by_Sorted (x : option Z * nat) (l : list (option Z * nat)) :
  Sorted (λ p q, key_le p.1 q.1 = true) l →
  Sorted (λ p q, key_le p.1 q.1 = true) (insert_by x l).
Proof.
  induction 1 as [|y l Hs IH Hhd]; simpl; [by repeat constructor|].
  destruct (key_le x.1 y.1) eqn:Hxy.
  - constructor; [by constructor | by constructor].
  - constructor; [done|]. apply insert_by_HdRel; [by apply key_le_total | done].
Qed.

Lemma insertion_sort_Sorted (l : list (option Z * nat)) :
  Sorted (λ p q, key_le p.1 q.1 = true) (foldr insert_by [] l).
Proof.
  induction l as [|x l IH]; simpl; [constructor | by apply insert_by_Sorted].
Qed.

Lemma zip_seq_lookup {A} (keys : list A) (a : nat) (k : A) (i : nat) :
  (k, i) ∈ zip keys (seq a (length keys)) → keys !! (i - a)%nat = Some k ∧ (a ≤ i)%nat.
Proof.
  revert a. induction keys as [|k0 keys IH]; intros a; simpl.
  - by intros ?%elem_of_nil.
  - intros [[= -> ->]|Hin]%elem_of_cons.
    + by rewrite Nat.sub_diag.
    + apply IH in Hin as [Hl Hle]. split; [|lia].
      replace (i - a)%nat with (S (i - S a)) by lia. done.
Qed.

Lemma take_pairs {A} (keys : list A) (l : list (A * nat)) :
  (∀ k i, (k, i) ∈ l → keys !! i = Some k) →
  take (map snd l) keys = map fst l.
Proof.
  unfold take. induction l as [|[k i] l IH]; intros Hl; simpl; [done|].
  rewrite (Hl k i) by (by left). simpl. f_equal.
  apply IH. intros k' i' Hin. apply Hl. by right.
Qed.

Lemma Sorted_map_fst (l : list (option Z * nat)) :
  Sorted (λ p q, key_le p.1 q.1 = true) l →
  Sorted (λ a b, key_le a b = true) (map fst l).
Proof.
  induction 1 as [|x l Hs IH Hhd]; simpl; constructor; [done|].
  destruct Hhd; simpl; by constructor.
Qed.

(** The keys in the order the sort lists the rows. *)
Lemma take_argsort_Sorted (keys : list (option Z)) :
  StronglySorted (λ a b, key_le a b = true) (take (argsort keys) keys).
Proof.
  apply Sorted_StronglySorted; [intros a b c; apply key_le_trans|].
  unfold argsort. rewrite take_pairs.
  - apply Sorted_map_fst, insertion_sort_Sorted.
  - intros k i Hin.
    assert (∀ l : list (option Z * nat), Permutation (foldr insert_by [] l) l) as Hsort.
    { induction l as [|x l IH]; simpl; [done|].
      by rewrite insert_by_Permutation, IH. }
    apply (proj1 (elem_of_Permutation_list _ _ _ (Hsort _))) in Hin.
    apply zip_seq_lookup in Hin as [Hl _]. by rewrite Nat.sub_0_r in Hl.
Qed.

Lemma getitem_map (f : Series → Series) (df : DataFrame) (name : string) :
  getitem (map (λ cs : string * Series, (cs.1, f cs.2)) df) name
  = f <$> getitem df name.
Proof.
  induction df as [|[c s] df IH]; simpl; [done|].
  by case_bool_decide.
Qed.



(** ** Stripping the percent signs *)

Lemma rstrip_fixed (c : ascii) (s : string) :
  last (list_ascii_of_string s) ≠ Some c → rstrip c s = s.
Proof.
  induction s as [|a s IH]; [done|]. cbn [rstrip list_ascii_of_string].
  destruct s as [|b s].
  - simpl. intros Ha. rewrite bool_decide_eq_false_2; [done|]. congruence.
  - intros Hlast. rewrite IH by done. done.
Qed.

(** X18: stripping removes trailing percent signs and nothing else.  The
    string is the stripped string followed by a run of the stripped
    character, the stripped string does not end in that character, and
    stripping again changes nothing. *)
Theorem rstrip_spec (c : ascii) (s : string) :
  (∃ k, s = (rstrip c s ++ string_of_list_ascii (replicate k c))%string)
  ∧ last (list_ascii_of_string (rstrip c s)) ≠ Some c
  ∧ rstrip c (rstrip c s) = rstrip c s.
Proof.
  assert ((∃ k, s = (rstrip c s ++ string_of_list_ascii (replicate k c))%string)
          ∧ last (list_ascii_of_string (rstrip c s)) ≠ Some c) as [Hsplit Hlast].
  { induction s as [|a s [[k Hk] IHlast]].
    - split; [by exists 0%nat | done].
    - cbn [rstrip]. destruct (rstrip c s) as [|b t] eqn:Hr.
      + change (s = string_of_list_ascii (replicate k c)) in Hk.
        case_bool_decide as Ha.
        * split; [|done]. exists (S k).
          change (String a s = String c (string_of_list_ascii (replicate k c))).
          by rewrite Ha, <- Hk.
        * split; [|simpl; congruence]. exists k.
          change (String a s = String a (string_of_list_ascii (replicate k c))).
          by rewrite <- Hk.
      + split; [|done]. exists k.
        change (String a s
                = String a (String b t +:+ string_of_list_ascii (replicate k c))).
        by rewrite <- Hk. }
  split; [done|]. split; [done|]. by apply rstrip_fixed.
Qed.

(** ** Runs of the whole script on the sample files *)

Lemma validation_precedes_transform_witness :
  let g := (@exec [@parse_dates sample_parsers; sort_by_ts; rename]
              {| g_df := csv_without_hour; g_metrics := None |}).1 in
  @run sample_parsers csv_without_hour
  = (g, Some (MissingColumns (missing_columns (g_df g))))
  ∧ g_metrics g = None.
Proof.
  intros g. apply (@validation_precedes_transform sample_parsers csv_without_hour g).
  - by vm_compute.
  - by vm_compute.
Defined.


(** ** From the file to the metrics *)

Lemma take_lookup {A} (idx : list nat) (l : list A) (j : nat) :
  (∀ i, i ∈ idx → (i < length l)%nat) →
  take idx l !! j = idx !! j ≫= λ i, l !! i.
Proof.
  unfold take. revert j. induction idx as [|i idx IH]; intros j Hidx; [done|].
  destruct (lookup_lt_is_Some_2 l i) as [x Hx]; [apply Hidx; by left|].
  cbn [omap list_omap]. rewrite Hx. destruct j as [|j]; simpl.
  - by rewrite Hx.
  - apply IH. intros i' Hi'. apply Hidx. by right.
Qed.

Lemma length_take {A} (idx : list nat) (l : list A) :
  (∀ i, i ∈ idx → (i < length l)%nat) → length (take idx l) = length idx.
Proof.
  unfold take. induction idx as [|i idx IH]; intros Hidx; [done|].
  destruct (lookup_lt_is_Some_2 l i) as [x Hx]; [apply Hidx; by left|].
  cbn [omap list_omap]. rewrite Hx. simpl. f_equal.
  apply IH. intros i' Hi'. apply Hidx. by right.
Qed.

Lemma mapM_take {A} (f f' : nat → option A) (idx : list nat) (n : nat)
    (rows : list A) :
  mapM f (seq 0 n) = Some rows →
  (∀ j, f' j = idx !! j ≫= f) →
  (∀ i, i ∈ idx → (i < n)%nat) →
  mapM f' (seq 0 (length idx)) = Some (take idx rows).
Proof.
  intros Hrows Hf' Hidx.
  apply mapM_Some, Forall2_same_length_lookup in Hrows as [Hlen Hrows].
  rewrite length_seq in Hlen.
  assert (∀ i, i ∈ idx → (i < length rows)%nat) as Hvalid
    by (intros i Hi; rewrite <- Hlen; by apply Hidx).
  apply mapM_Some, Forall2_same_length_lookup. split.
  - by rewrite length_seq, length_take.
  - intros j x r Hj Hr. apply lookup_seq in Hj as [-> Hlt]. simpl.
    rewrite take_lookup in Hr by done. rewrite Hf'.
    destruct (idx !! j) as [i|] eqn:Hi; [|done]. simpl in *.
    apply (Hrows i i r); [|done]. apply lookup_seq. split; [done|].
    apply Hidx. by apply list_elem_of_lookup_2 in Hi.
Qed.

Lemma row_at_take (idx : list nat) (n : nat)
    (t1 t2 ct : list label) (a1 a2 o1 o2 g1 g2 s1 s2 : list Z) (j : nat) :
  (∀ i, i ∈ idx → (i < n)%nat) →
  length t1 = n → length t2 = n → length ct = n → length a1 = n → length a2 = n →
  length o1 = n → length o2 = n → length g1 = n → length g2 = n →
  length s1 = n → length s2 = n →
  row_at (take idx t1) (take idx t2) (take idx ct) (take idx a1) (take idx a2)
    (take idx o1) (take idx o2) (take idx g1) (take idx g2) (take idx s1)
    (take idx s2) j
  = idx !! j ≫= row_at t1 t2 ct a1 a2 o1 o2 g1 g2 s1 s2.
Proof.
  intros Hidx <- H2 H3 H4 H5 H6 H7 H8 H9 H10 H11. unfold row_at.
  rewrite !take_lookup by (intros; by rewrite ?H2, ?H3, ?H4, ?H5, ?H6, ?H7, ?H8,
                                              ?H9, ?H10, ?H11; apply Hidx).
  by destruct (idx !! j).
Qed.

Lemma rows_of_row_at (df : DataFrame) :
  rows_of df
  = (t1 ← text_col df "team1"; t2 ← text_col df "team2";
     ct ← text_col df "category";
     a1 ← int_col df "total_attempts_team1"; a2 ← int_col df "total_attempts_team2";
     o1 ← int_col df "on_target_attempts_team1";
     o2 ← int_col df "on_target_attempts_team2";
     g1 ← int_col df "number_of_goals_team1"; g2 ← int_col df "number_of_goals_team2";
     s1 ← int_col df "assists_team1"; s2 ← int_col df "assists_team2";
     mapM (row_at t1 t2 ct a1 a2 o1 o2 g1 g2 s1 s2) (seq 0 (length t1))).
Proof. reflexivity. Qed.

Lemma text_col_take (F R : DataFrame) (idx : list nat) (n : nat) (name : string)
    (v : list label) :
  getitem F name = take_rows idx <$> getitem R name →
  (∀ name s, getitem R name = Ok s → series_length s = n) →
  text_col R name = Some v →
  text_col F name = Some (take idx v) ∧ length v = n.
Proof.
  unfold text_col. intros -> Hn.
  destruct (getitem R name) as [[v'| | |]|] eqn:Hg; try done.
  intros [= ->]. split; [done|]. apply (Hn _ _ Hg).
Qed.

Lemma int_col_take (F R : DataFrame) (idx : list nat) (n : nat) (name : string)
    (v : list Z) :
  getitem F name = take_rows idx <$> getitem R name →
  (∀ name s, getitem R name = Ok s → series_length s = n) →
  int_col R name = Some v →
  int_col F name = Some (take idx v) ∧ length v = n.
Proof.
  unfold int_col. intros -> Hn.
  destruct (getitem R name) as [[| v' | |]|] eqn:Hg; try done.
  intros [= ->]. split; [done|]. apply (Hn _ _ Hg).
Qed.

(** Reordering the columns of a frame reorders its rows. *)
Lemma rows_of_take (F R : DataFrame) (idx : list nat) (n : nat) (rows0 : table) :
  (∀ name, name ∈ aggregation_columns →
           getitem F name = take_rows idx <$> getitem R name) →
  (∀ name s, getitem R name = Ok s → series_length s = n) →
  Permutation idx (seq 0 n) →
  rows_of R = Some rows0 →
  rows_of F = Some (take idx rows0) ∧ length rows0 = n.
Proof.
  intros Hget Hn Hperm. rewrite !rows_of_row_at.
  assert (∀ i, i ∈ idx → (i < n)%nat) as Hidx.
  { intros i Hi. apply (elem_of_Permutation_list _ _ _ Hperm) in Hi.
    apply elem_of_seq in Hi. lia. }
  assert (length idx = n) as Hlen
    by (by rewrite (Permutation_length Hperm), length_seq).
  assert (∀ name, name ∈ aggregation_columns →
            ∀ v, text_col R name = Some v →
                 text_col F name = Some (take idx v) ∧ length v = n) as Htext
    by (intros name Hin v; apply text_col_take; [by apply Hget | done]).
  assert (∀ name, name ∈ aggregation_columns →
            ∀ v, int_col R name = Some v →
                 int_col F name = Some (take idx v) ∧ length v = n) as Hint
    by (intros name Hin v; apply int_col_take; [by apply Hget | done]).
  destruct (text_col R "team1") as [t1|] eqn:E1; [|done].
  destruct (Htext "team1"%string ltac:(unfold aggregation_columns; set_solver) t1 E1)
    as [-> L1].
  destruct (text_col R "team2") as [t2|] eqn:E2; [|done].
  destruct (Htext "team2"%string ltac:(unfold aggregation_columns; set_solver) t2 E2)
    as [-> L2].
  destruct (text_col R "category") as [ct|] eqn:E3; [|done].
  destruct (Htext "category"%string ltac:(unfold aggregation_columns; set_solver) ct E3)
    as [-> L3].
  destruct (int_col R "total_attempts_team1") as [a1|] eqn:E4; [|done].
  destruct (Hint "total_attempts_team1"%string
              ltac:(unfold aggregation_columns; set_solver) a1 E4) as [-> L4].
  destruct (int_col R "total_attempts_team2") as [a2|] eqn:E5; [|done].
  destruct (Hint "total_attempts_team2"%string
              ltac:(unfold aggregation_columns; set_solver) a2 E5) as [-> L5].
  destruct (int_col R "on_target_attempts_team1") as [o1|] eqn:E6; [|done].
  destruct (Hint "on_target_attempts_team1"%string
              ltac:(unfold aggregation_columns; set_solver) o1 E6) as [-> L6].
  destruct (int_col R "on_target_attempts_team2") as [o2|] eqn:E7; [|done].
  destruct (Hint "on_target_attempts_team2"%string
              ltac:(unfold aggregation_columns; set_solver) o2 E7) as [-> L7].
  destruct (int_col R "number_of_goals_team1") as [g1|] eqn:E8; [|done].
  destruct (Hint "number_of_goals_team1"%string
              ltac:(unfold aggregation_columns; set_solver) g1 E8) as [-> L8].
  destruct (int_col R "number_of_goals_team2") as [g2|] eqn:E9; [|done].
  destruct (Hint "number_of_goals_team2"%string
              ltac:(unfold aggregation_columns; set_solver) g2 E9) as [-> L9].
  destruct (int_col R "assists_team1") as [s1|] eqn:E10; [|done].
  destruct (Hint "assists_team1"%string
              ltac:(unfold aggregation_columns; set_solver) s1 E10) as [-> L10].
  destruct (int_col R "assists_team2") as [s2|] eqn:E11; [|done].
  destruct (Hint "assists_team2"%string
              ltac:(unfold aggregation_columns; set_solver) s2 E11) as [-> L11].
  cbn [mbind option_bind].
  rewrite length_take by (intros; rewrite L1; by apply Hidx). rewrite L1.
  intros Hrows. split.
  - eapply mapM_take; [exact Hrows | | exact Hidx].
    intros j. by apply (row_at_take idx n).
  - apply length_mapM in Hrows. by rewrite length_seq in Hrows.
Qed.

Lemma rectangular_getitem (n : nat) (df : DataFrame) (name : string) (s : Series) :
  rectangular n df → getitem df name = Ok s → series_length s = n.
Proof.
  unfold rectangular. induction 1 as [|[c s0] df Hc Hdf IH]; simpl; [done|].
  case_bool_decide; [by intros [= <-] | done].
Qed.

Lemma rectangular_rename (n : nat) (df : DataFrame) :
  rectangular n df → rectangular n (rename_columns df).
Proof.
  unfold rectangular, rename_columns. intros Hr. apply Forall_map.
  by apply (Forall_impl _ _ _ Hr).
Qed.

Lemma traverse_length {A B} (f : A → result B) (l : list A) (k : list B) :
  traverse f l = Ok k → length k = length l.
Proof.
  revert k. induction l as [|x l IH]; intros k; simpl; [by intros [= <-]|].
  destruct (f x) as [y|]; [|done]. simpl.
  destruct (traverse f l) as [ys|]; [|done]. simpl.
  intros [= <-]. simpl. f_equal. by apply IH.
Qed.

Lemma to_datetime_length `{Parsers} (s ts : Series) :
  to_datetime s = Ok ts →
  ∃ keys, ts = Datetime64S keys ∧ length keys = series_length s.
Proof.
  destruct s as [vals| | |keys]; simpl; try done.
  - destruct (traverse _ vals) as [keys|] eqn:Ht; [|done]. simpl.
    intros [= <-]. exists keys. split; [done|]. by apply traverse_length in Ht.
  - intros [= <-]. by exists keys.
Qed.

Lemma rename_columns_map (f : Series → Series) (df : DataFrame) :
  rename_columns (map (λ cs : string * Series, (cs.1, f cs.2)) df)
  = map (λ cs : string * Series, (cs.1, f cs.2)) (rename_columns df).
Proof. unfold rename_columns. by rewrite !List.map_map. Qed.

Lemma getitem_rename_setitem_ts (df : DataFrame) (s : Series) (name : string) :
  name ≠ "ts"%string →
  getitem (rename_columns (setitem df "ts" s)) name
  = getitem (rename_columns df) name.
Proof.
  intros Hname. unfold rename_columns.
  induction df as [|[c s0] df IH]; cbn [setitem map getitem fst snd].
  - change (replace_char " " "_" "ts") with "ts"%string.
    by rewrite bool_decide_eq_false_2 by congruence.
  - case_bool_decide as Hc; cbn [map getitem fst snd].
    + subst c. change (replace_char " " "_" "ts") with "ts"%string.
      by rewrite !bool_decide_eq_false_2 by congruence.
    + by rewrite IH.
Qed.

(** What lines 11-17 leave when they complete. *)
Lemma load_stage_completes `{Parsers} (g0 g1 : globals) :
  exec load_stage g0 = (g1, None) →
  ∃ date keys,
    getitem (g_df g0) "date" = Ok date
    ∧ to_datetime date = Ok (Datetime64S keys)
    ∧ length keys = series_length date
    ∧ g_df g1
      = rename_columns
          (map (λ cs : string * Series, (cs.1, take_rows (argsort keys) cs.2))
               (setitem (g_df g0) "ts" (Datetime64S keys)))
    ∧ g_metrics g1 = g_metrics g0.
Proof.
  unfold load_stage. cbn [exec]. unfold parse_dates.
  destruct (getitem (g_df g0) "date") as [date|] eqn:Hdate; [|done].
  cbn [mbind result_bind].
  destruct (to_datetime date) as [ts|] eqn:Hts; [|done].
  destruct (to_datetime_length _ _ Hts) as (keys & -> & Hlen).
  cbn [mbind result_bind mret result_ret]. unfold sort_by_ts, sort_values.
  cbn [g_df set_df]. rewrite getitem_setitem_eq.
  cbn [mbind result_bind mret result_ret]. unfold rename.
  cbn [mret result_ret g_df set_df g_metrics]. intros [= <-].
  exists date, keys. by repeat split.
Qed.

(** X22: on a file whose columns all have the same number of rows, a run
    that completes leaves the metrics of the file's own rows, read under
    the renamed column names: the date sort only reorders them and the
    possession step does not touch them, so every (team, category) record
    is the one the aggregation gives for the rows in file order. *)
Theorem metrics_of_the_file `{Parsers} (csv : DataFrame) (n : nat) (rows0 : table)
    (g : globals) :
  rectangular n csv →
  rows_of (rename_columns csv) = Some rows0 →
  run csv = (g, None) →
  ∃ rows,
    g_metrics g = Some (metrics rows)
    ∧ Permutation rows rows0
    ∧ ∀ cat team,
        lookup_record (metrics rows) cat team
        = lookup_record (metrics rows0) cat team.
Proof.
  intros Hrect Hrows0. unfold run, script. rewrite exec_app.
  destruct (exec load_stage _) as [g1 [e|]] eqn:Hload; [done|].
  apply load_stage_completes in Hload
    as (date & keys & Hdate & _ & Hlen & Hdf1 & _).
  cbn [g_df] in Hdate, Hdf1.
  rewrite (rectangular_getitem n csv _ _ Hrect Hdate) in Hlen.
  rewrite exec_app. cbn [exec]. unfold validate at 1.
  destruct (missing_columns (g_df g1)); [|done].
  rewrite exec_app.
  pose proof (transform_names possession_columns g1 possession_columns_NoDup)
    as (_ & _ & Hother & _ & _).
  change (map preprocess possession_columns) with transform_stage in Hother.
  destruct (exec transform_stage g1) as [g2 [e|]]; [done|].
  cbn [exec fst] in *. unfold aggregate.
  destruct (rows_of (g_df g2)) as [rows|] eqn:Hrows; [|done]. intros [= <-].
  exists rows. cbn [g_metrics]. split; [done|].
  destruct (rows_of_take (g_df g2) (rename_columns csv) (argsort keys) n rows0)
    as [Hrows' Hn]; try done.
  - intros name Hname. rewrite Hother, Hdf1, rename_columns_map, getitem_map.
    + rewrite getitem_rename_setitem_ts; [done|].
      intros ->. revert Hname. unfold aggregation_columns.
      rewrite !elem_of_cons, elem_of_nil. intuition discriminate.
    + revert Hname. unfold aggregation_columns, possession_columns.
      rewrite !elem_of_cons, !elem_of_nil. intuition congruence.
  - intros name s. apply rectangular_getitem. by apply rectangular_rename.
  - rewrite <- Hlen. apply argsort_Permutation.
  - rewrite Hrows in Hrows'. injection Hrows' as ->.
    assert (Permutation (take (argsort keys) rows0) rows0) as Hperm.
    { apply take_Permutation. rewrite Hn, <- Hlen. apply argsort_Permutation. }
    split; [done|]. intros cat team. by apply lookup_record_Permutation.
Qed.

Lemma metrics_of_the_file_witness :
  ∃ rows,
    g_metrics (@run sample_parsers sample_csv).1 = Some (metrics rows)
    ∧ Permutation rows
        [ mk_row "ENGLAND" "IRAN" "Group B" 13 8 7 3 6 2 6 1;
          mk_row "QATAR" "ECUADOR" "Group A" 2 1 0 1 0 2 0 1;
          mk_row "QATAR" "SENEGAL" "Group A" 10 14 3 5 1 3 1 2 ]
    ∧ ∀ cat team,
        lookup_record (metrics rows) cat team
        = lookup_record
            (metrics [ mk_row "ENGLAND" "IRAN" "Group B" 13 8 7 3 6 2 6 1;
                       mk_row "QATAR" "ECUADOR" "Group A" 2 1 0 1 0 2 0 1;
                       mk_row "QATAR" "SENEGAL" "Group A" 10 14 3 5 1 3 1 2 ])
            cat team.
Proof.
  apply (@metrics_of_the_file sample_parsers sample_csv 3).
  - unfold rectangular, sample_csv. repeat constructor.
  - by vm_compute.
  - by vm_compute.
Defined.
